(** * Realty chat front end: form coercion, admin dialog and chat widget

    A shallow embedding of the two React components of the repository,
    [AdminPanel] (property create / edit / delete dialog) and
    [RealEstatePage] (landing page with the chat widget), together with the
    JavaScript built-ins their handlers call ([String.prototype.trim],
    [split], [Array.prototype.join], [parseInt], [parseFloat],
    [Number.prototype.toString]).

    Component state is a record, one field per [useState] cell.  An [async]
    handler is cut at its [await]: the part before it runs on the state of
    the event that started it, the part after it runs on whatever the state
    is when the request completes.  Requests in flight and the effects a
    handler performs (HTTP calls, [alert], [console.error]) are recorded in
    the world next to the component state. *)

From Stdlib Require Import ZArith List String Ascii Bool Lia.
From Stdlib Require Import DecimalString DecimalPos.
Import ListNotations.

Local Open Scope string_scope.
Local Open Scope Z_scope.

(* ================================================================== *)
(** ** JavaScript built-ins *)
(* ================================================================== *)

Module JS.

(** *** Strings

    A character of the model is a UTF-16 code unit below 256. *)

(** WhiteSpace and LineTerminator code units (ECMAScript 12.2, 12.3) in
    that range: TAB, LF, VT, FF, CR, SP and NBSP. *)
Definition is_white (c : ascii) : bool :=
  let n := N_of_ascii c in
  ((n =? 9) || (n =? 10) || (n =? 11) || (n =? 12) || (n =? 13)
   || (n =? 32) || (n =? 160))%N.

(** [String.prototype.trimStart] *)
Fixpoint trimStart (s : string) : string :=
  match s with
  | EmptyString => EmptyString
  | String c r => if is_white c then trimStart r else s
  end.

(** [String.prototype.trimEnd] *)
Fixpoint trimEnd (s : string) : string :=
  match s with
  | EmptyString => EmptyString
  | String c r =>
      match trimEnd r with
      | EmptyString => if is_white c then EmptyString else String c EmptyString
      | r' => String c r'
      end
  end.

(** [String.prototype.trim] *)
Definition trim (s : string) : string := trimEnd (trimStart s).

(** [s.split(sep)] for a separator of one code unit. The result is never
    empty: the empty string splits into one empty segment. *)
Fixpoint split (sep : ascii) (s : string) : list string :=
  match s with
  | EmptyString => [EmptyString]
  | String c r =>
      if Ascii.eqb c sep then EmptyString :: split sep r
      else match split sep r with
           | seg :: segs => String c seg :: segs
           | [] => [String c EmptyString]
           end
  end.

(** [xs.join(sep)] on an array of strings *)
Fixpoint join (sep : string) (xs : list string) : string :=
  match xs with
  | [] => EmptyString
  | [x] => x
  | x :: rest => x ++ sep ++ join sep rest
  end.

(** ToBoolean on a string: only the empty string is falsy. *)
Definition truthy_string (s : string) : bool :=
  match s with EmptyString => false | _ => true end.

(** Number of occurrences of a code unit. *)
Fixpoint count_char (c : ascii) (s : string) : nat :=
  match s with
  | EmptyString => O
  | String d r => (if Ascii.eqb d c then 1 else 0) + count_char c r
  end.

(** *** Numbers

    A finite Number is held as the decimal [m * 10^e] that
    [Number::toString] prints for it (its digits [s] and exponent [n - k]),
    canonical: [m] is not a multiple of ten, and zero is [Finite 0 0].
    [parseInt] and [parseFloat] return the exact value of the literal they
    read; rounding of that value to binary64 (and overflow to Infinity,
    underflow, the sign of zero) is outside the model. *)
Inductive Number : Type :=
| NaN
| Infinity (negative : bool)
| Finite (m e : Z).

Fixpoint strip_zeros (fuel : nat) (m e : Z) : Z * Z :=
  match fuel with
  | O => (m, e)
  | S fuel' =>
      if (m mod 10 =? 0) then strip_zeros fuel' (m / 10) (e + 1) else (m, e)
  end.

(** The Number of value [m * 10^e]. *)
Definition decimal (m e : Z) : Number :=
  if m =? 0 then Finite 0 0
  else let '(m', e') := strip_zeros (Z.to_nat (Z.log2 (Z.abs m))) m e in
       Finite m' e'.

Definition of_Z (n : Z) : Number := decimal n 0.

Definition zero : Number := Finite 0 0.

(** ToBoolean on a Number: NaN and zero are falsy. *)
Definition truthy (x : Number) : bool :=
  match x with
  | NaN => false
  | Infinity _ => true
  | Finite m _ => negb (m =? 0)
  end.

(** [x || d] on Numbers *)
Definition or_else (x d : Number) : Number := if truthy x then x else d.

(** Value of a code unit as a digit of the given radix (10 or 16). *)
Definition digit_value (radix : Z) (c : ascii) : option Z :=
  let n := Z.of_N (N_of_ascii c) in
  let v := if (48 <=? n) && (n <=? 57) then n - 48
           else if (97 <=? n) && (n <=? 122) then n - 87
           else if (65 <=? n) && (n <=? 90) then n - 55
           else radix in
  if v <? radix then Some v else None.

(** Longest prefix of radix digits: its value (most significant digit
    first, [acc] holding the digits read so far), how many digits it has,
    and the rest of the string. *)
Fixpoint read_digits (radix : Z) (s : string) (acc : Z) (len : nat)
  : Z * nat * string :=
  match s with
  | EmptyString => (acc, len, s)
  | String c r =>
      match digit_value radix c with
      | Some v => read_digits radix r (acc * radix + v) (S len)
      | None => (acc, len, s)
      end
  end.

(** Optional sign: [true] for a leading minus. *)
Definition read_sign (s : string) : bool * string :=
  match s with
  | String "-" r => (true, r)
  | String "+" r => (false, r)
  | _ => (false, s)
  end.

Definition signed (neg : bool) (n : Z) : Z := if neg then - n else n.

(** [parseInt(s)] with the radix left out (ECMAScript 19.2.5): leading
    white space skipped, optional sign, radix 16 after 0x or 0X and 10
    otherwise, then the longest run of digits; NaN when there is none. *)
Definition parseInt (s : string) : Number :=
  let '(neg, body) := read_sign (trimStart s) in
  let '(radix, body) :=
    match body with
    | String "0" (String "x" r) => (16, r)
    | String "0" (String "X" r) => (16, r)
    | _ => (10, body)
    end in
  let '(n, len, _) := read_digits radix body 0 O in
  match len with
  | O => NaN
  | S _ => of_Z (signed neg n)
  end.

(** Optional exponent part of a StrDecimalLiteral: e or E, optional sign,
    at least one digit; otherwise nothing is consumed. *)
Definition read_exponent (s : string) : Z :=
  match s with
  | String c r =>
      if Ascii.eqb c "e" || Ascii.eqb c "E" then
        let '(neg, r') := read_sign r in
        let '(x, len, _) := read_digits 10 r' 0 O in
        match len with O => 0 | S _ => signed neg x end
      else 0
  | EmptyString => 0
  end.

Fixpoint starts_with (p s : string) : bool :=
  match p, s with
  | EmptyString, _ => true
  | String a p', String b s' => Ascii.eqb a b && starts_with p' s'
  | String _ _, EmptyString => false
  end.

(** [parseFloat(s)] (ECMAScript 19.2.4): the value of the longest prefix
    of the left-trimmed string that is a StrDecimalLiteral, NaN when no
    prefix is one. *)
Definition parseFloat (s : string) : Number :=
  let '(neg, body) := read_sign (trimStart s) in
  if starts_with "Infinity" body then Infinity neg
  else
    let '(ip, ilen, rest) := read_digits 10 body 0 O in
    let '(m, flen, rest) :=
      match rest with
      | String "." r =>
          let '(m, flen, r') := read_digits 10 r ip O in
          match ilen, flen with
          | O, O => (ip, O, rest)
          | _, _ => (m, flen, r')
          end
      | _ => (ip, O, rest)
      end in
    match ilen, flen with
    | O, O => NaN
    | _, _ => decimal (signed neg m) (read_exponent rest - Z.of_nat flen)
    end.

(** Decimal digits of a positive integer, most significant first. *)
Definition digits (p : positive) : string :=
  NilEmpty.string_of_uint (Pos.to_uint p).

Definition digits_Z (n : Z) : string :=
  match n with
  | Z0 => "0"
  | Zpos p => digits p
  | Zneg p => digits p
  end.

Fixpoint zeros (n : nat) : string :=
  match n with O => EmptyString | S n' => String "0" (zeros n') end.

Fixpoint take (n : nat) (s : string) : string :=
  match n, s with
  | S n', String c r => String c (take n' r)
  | _, _ => EmptyString
  end.

Fixpoint drop (n : nat) (s : string) : string :=
  match n, s with
  | S n', String _ r => drop n' r
  | _, _ => s
  end.

(** [Number::toString(x)] in radix 10 (ECMAScript 6.1.6.1.20) for a
    positive finite value with digits [ds] (there are [k] of them) and
    decimal exponent [n]: the value is [0.ds * 10^n]. *)
Definition positive_toString (ds : string) (n : Z) : string :=
  let k := Z.of_nat (String.length ds) in
  if (k <=? n) && (n <=? 21) then ds ++ zeros (Z.to_nat (n - k))
  else if (0 <? n) && (n <=? 21) then
    take (Z.to_nat n) ds ++ "." ++ drop (Z.to_nat n) ds
  else if (-6 <? n) && (n <=? 0) then "0." ++ zeros (Z.to_nat (- n)) ++ ds
  else
    let ex := (if n - 1 <? 0 then "-" else "+") ++ digits_Z (n - 1) in
    if k =? 1 then ds ++ "e" ++ ex
    else take 1 ds ++ "." ++ drop 1 ds ++ "e" ++ ex.

(** [x.toString()] *)
Definition toString (x : Number) : string :=
  match x with
  | NaN => "NaN"
  | Infinity false => "Infinity"
  | Infinity true => "-Infinity"
  | Finite Z0 _ => "0"
  | Finite (Zpos p) e =>
      positive_toString (digits p) (Z.of_nat (String.length (digits p)) + e)
  | Finite (Zneg p) e =>
      "-" ++ positive_toString (digits p)
               (Z.of_nat (String.length (digits p)) + e)
  end.

End JS.

(* ================================================================== *)
(** ** Data model *)
(* ================================================================== *)

(** A property record as the API returns it. Optional fields are absent
    ([undefined] or [null]) when [None]. *)
Module Property.
Record t : Type := mk {
  id : string;
  title : string;
  description : string;
  price : JS.Number;
  location : string;
  address : string;
  bedrooms : JS.Number;
  bathrooms : JS.Number;
  sqft : JS.Number;
  property_type : string;
  image_url : string;
  amenities : list string;
  year_built : option JS.Number;
  garage : option JS.Number;
  lot_size : option JS.Number;
  mls_number : option string;
  status : string
}.
End Property.

(** The form draft, [formData]: every field a string. *)
Module FormData.
Record t : Type := mk {
  title : string;
  description : string;
  price : string;
  location : string;
  address : string;
  bedrooms : string;
  bathrooms : string;
  sqft : string;
  property_type : string;
  image_url : string;
  amenities : string;
  year_built : string;
  garage : string;
  lot_size : string;
  mls_number : string
}.

(** The object literal of [useState] and of [resetForm]. *)
Definition empty : t :=
  mk "" "" "" "" "" "" "" "" "" "" "" "" "" "" "".
End FormData.

(** The request body built by [handleSubmit], [submitData]: the draft
    spread, with the eight coerced fields overwritten. [None] is [null]. *)
Module SubmitData.
Record t : Type := mk {
  title : string;
  description : string;
  price : JS.Number;
  location : string;
  address : string;
  bedrooms : JS.Number;
  bathrooms : JS.Number;
  sqft : JS.Number;
  property_type : string;
  image_url : string;
  amenities : list string;
  year_built : option JS.Number;
  garage : option JS.Number;
  lot_size : option JS.Number;
  mls_number : string
}.
End SubmitData.

(** Keys of the draft, the first argument of [handleInputChange]. *)
Inductive Field : Type :=
| f_title | f_description | f_price | f_location | f_address
| f_bedrooms | f_bathrooms | f_sqft | f_property_type | f_image_url
| f_amenities | f_year_built | f_garage | f_lot_size | f_mls_number.

(** HTTP calls made through axios, relative to the API base. *)
Inductive Http : Type :=
| GET_properties
| POST_properties (body : SubmitData.t)
| PUT_properties (id : string) (body : SubmitData.t)
| DELETE_properties (id : string)
| POST_chat (message agent_type : string).

(** What a handler does to the outside. *)
Inductive Effect : Type :=
| Request (r : Http)
| Confirm (message : string)
| Alert (message : string)
| ConsoleError (message : string).

Definition is_request (e : Effect) : bool :=
  match e with Request _ => true | _ => false end.

Definition requests (log : list Effect) : list Effect := filter is_request log.

(* ================================================================== *)
(** ** AdminPanel *)
(* ================================================================== *)

Module AdminPanel.

(** A handler suspended at its [await]. *)
Inductive Suspended : Type :=
| in_fetchProperties
| in_handleSubmit
| in_handleDelete.

(** How an awaited axios call settles; [data] is [response.data]. *)
Inductive Settled : Type :=
| Fulfilled (data : list Property.t)
| Rejected.

(** The five [useState] cells, the handlers waiting on a request, and the
    effects performed so far (oldest first). *)
Record World : Type := mkWorld {
  properties : list Property.t;
  loading : bool;
  isDialogOpen : bool;
  editingProperty : option Property.t;
  formData : FormData.t;
  pending : list Suspended;
  log : list Effect
}.

Definition setProperties (v : list Property.t) (w : World) : World :=
  mkWorld v (loading w) (isDialogOpen w) (editingProperty w) (formData w)
          (pending w) (log w).
Definition setLoading (v : bool) (w : World) : World :=
  mkWorld (properties w) v (isDialogOpen w) (editingProperty w) (formData w)
          (pending w) (log w).
Definition setIsDialogOpen (v : bool) (w : World) : World :=
  mkWorld (properties w) (loading w) v (editingProperty w) (formData w)
          (pending w) (log w).
Definition setEditingProperty (v : option Property.t) (w : World) : World :=
  mkWorld (properties w) (loading w) (isDialogOpen w) v (formData w)
          (pending w) (log w).
Definition setFormData (v : FormData.t) (w : World) : World :=
  mkWorld (properties w) (loading w) (isDialogOpen w) (editingProperty w) v
          (pending w) (log w).
Definition perform (es : list Effect) (w : World) : World :=
  mkWorld (properties w) (loading w) (isDialogOpen w) (editingProperty w)
          (formData w) (pending w) (log w ++ es).
Definition await (k : Suspended) (w : World) : World :=
  mkWorld (properties w) (loading w) (isDialogOpen w) (editingProperty w)
          (formData w) (pending w ++ [k]) (log w).

(** [fetchProperties], up to its [await]. *)
Definition fetchProperties (w : World) : World :=
  await in_fetchProperties (perform [Request GET_properties] (setLoading true w)).

(** [fetchProperties], from its [await] on. *)
Definition fetchProperties_resume (r : Settled) (w : World) : World :=
  match r with
  | Fulfilled data => setLoading false (setProperties data w)
  | Rejected =>
      setLoading false (perform [ConsoleError "Error fetching properties:"] w)
  end.

(** [handleInputChange] *)
Definition handleInputChange (field : Field) (value : string) (w : World)
  : World :=
  let prev := formData w in
  let 'FormData.mk ti de pr lo ad be ba sq pt im am yb ga ls ml := prev in
  setFormData
    match field with
    | f_title => FormData.mk value de pr lo ad be ba sq pt im am yb ga ls ml
    | f_description => FormData.mk ti value pr lo ad be ba sq pt im am yb ga ls ml
    | f_price => FormData.mk ti de value lo ad be ba sq pt im am yb ga ls ml
    | f_location => FormData.mk ti de pr value ad be ba sq pt im am yb ga ls ml
    | f_address => FormData.mk ti de pr lo value be ba sq pt im am yb ga ls ml
    | f_bedrooms => FormData.mk ti de pr lo ad value ba sq pt im am yb ga ls ml
    | f_bathrooms => FormData.mk ti de pr lo ad be value sq pt im am yb ga ls ml
    | f_sqft => FormData.mk ti de pr lo ad be ba value pt im am yb ga ls ml
    | f_property_type => FormData.mk ti de pr lo ad be ba sq value im am yb ga ls ml
    | f_image_url => FormData.mk ti de pr lo ad be ba sq pt value am yb ga ls ml
    | f_amenities => FormData.mk ti de pr lo ad be ba sq pt im value yb ga ls ml
    | f_year_built => FormData.mk ti de pr lo ad be ba sq pt im am value ga ls ml
    | f_garage => FormData.mk ti de pr lo ad be ba sq pt im am yb value ls ml
    | f_lot_size => FormData.mk ti de pr lo ad be ba sq pt im am yb ga value ml
    | f_mls_number => FormData.mk ti de pr lo ad be ba sq pt im am yb ga ls value
    end w.

(** [resetForm] *)
Definition resetForm (w : World) : World :=
  setEditingProperty None (setFormData FormData.empty w).

(** The [submitData] literal of [handleSubmit] (the spec's toPayload). *)
Definition submitData (d : FormData.t) : SubmitData.t :=
  {| SubmitData.title := FormData.title d;
     SubmitData.description := FormData.description d;
     SubmitData.location := FormData.location d;
     SubmitData.address := FormData.address d;
     SubmitData.property_type := FormData.property_type d;
     SubmitData.image_url := FormData.image_url d;
     SubmitData.mls_number := FormData.mls_number d;
     SubmitData.price := JS.or_else (JS.parseInt (FormData.price d)) JS.zero;
     SubmitData.bedrooms :=
       JS.or_else (JS.parseInt (FormData.bedrooms d)) JS.zero;
     SubmitData.bathrooms :=
       JS.or_else (JS.parseInt (FormData.bathrooms d)) JS.zero;
     SubmitData.sqft := JS.or_else (JS.parseInt (FormData.sqft d)) JS.zero;
     SubmitData.year_built :=
       if JS.truthy_string (FormData.year_built d)
       then Some (JS.parseInt (FormData.year_built d)) else None;
     SubmitData.garage :=
       if JS.truthy_string (FormData.garage d)
       then Some (JS.parseInt (FormData.garage d)) else None;
     SubmitData.lot_size :=
       if JS.truthy_string (FormData.lot_size d)
       then Some (JS.parseFloat (FormData.lot_size d)) else None;
     SubmitData.amenities :=
       if JS.truthy_string (FormData.amenities d)
       then map JS.trim (JS.split "," (FormData.amenities d)) else [] |}.

(** [handleSubmit], up to its [await]: the PUT when a property is being
    edited, the POST otherwise. *)
Definition handleSubmit (w : World) : World :=
  let body := submitData (formData w) in
  await in_handleSubmit
    (perform
       [Request match editingProperty w with
                | Some p => PUT_properties (Property.id p) body
                | None => POST_properties body
                end] w).

(** [handleSubmit], from its [await] on: the rest of the [try] block when
    the request is fulfilled, the [catch] block when it is rejected. *)
Definition handleSubmit_resume (r : Settled) (w : World) : World :=
  match r with
  | Fulfilled _ => fetchProperties (resetForm (setIsDialogOpen false w))
  | Rejected =>
      perform [ConsoleError "Error saving property:";
               Alert "Error saving property. Please check all fields."] w
  end.

(** [s || ''] on a string that may be [undefined]. *)
Definition or_empty (s : option string) : string :=
  match s with
  | Some v => if JS.truthy_string v then v else ""
  | None => ""
  end.

(** [handleEdit] *)
Definition handleEdit (property : Property.t) (w : World) : World :=
  setIsDialogOpen true
    (setFormData
       {| FormData.title := Property.title property;
          FormData.description := Property.description property;
          FormData.price := JS.toString (Property.price property);
          FormData.location := Property.location property;
          FormData.address := Property.address property;
          FormData.bedrooms := JS.toString (Property.bedrooms property);
          FormData.bathrooms := JS.toString (Property.bathrooms property);
          FormData.sqft := JS.toString (Property.sqft property);
          FormData.property_type := Property.property_type property;
          FormData.image_url := Property.image_url property;
          FormData.amenities := JS.join ", " (Property.amenities property);
          FormData.year_built :=
            or_empty (option_map JS.toString (Property.year_built property));
          FormData.garage :=
            or_empty (option_map JS.toString (Property.garage property));
          FormData.lot_size :=
            or_empty (option_map JS.toString (Property.lot_size property));
          FormData.mls_number := or_empty (Property.mls_number property) |}
       (setEditingProperty (Some property) w)).

(** [handleDelete], up to its [await]; [answer] is what [window.confirm]
    returns. *)
Definition handleDelete (propertyId : string) (answer : bool) (w : World)
  : World :=
  let w := perform [Confirm "Are you sure you want to delete this property?"] w in
  if answer
  then await in_handleDelete (perform [Request (DELETE_properties propertyId)] w)
  else w.

(** [handleDelete], from its [await] on. *)
Definition handleDelete_resume (r : Settled) (w : World) : World :=
  match r with
  | Fulfilled _ => fetchProperties w
  | Rejected =>
      perform [ConsoleError "Error deleting property:";
               Alert "Error deleting property."] w
  end.

Definition resume (k : Suspended) : Settled -> World -> World :=
  match k with
  | in_fetchProperties => fetchProperties_resume
  | in_handleSubmit => handleSubmit_resume
  | in_handleDelete => handleDelete_resume
  end.

(** The component as mounted: the initial [useState] values, then the
    mount effect, which calls [fetchProperties]. *)
Definition mounted : World :=
  fetchProperties (mkWorld [] true false None FormData.empty [] []).

(** What can happen next. *)
Inductive Event : Type :=
| click_AddProperty            (* header button, the dialog's trigger *)
| click_AddYourFirstProperty   (* button of the empty state *)
| click_Edit (card : nat)
| click_Delete (card : nat) (answer : bool)
| change (field : Field) (value : string)
| click_Cancel
| dismiss                      (* Escape, overlay or close icon *)
| click_Submit
| settle (i : nat) (r : Settled).

Fixpoint remove_nth {A : Type} (i : nat) (xs : list A) : list A :=
  match i, xs with
  | _, [] => []
  | O, _ :: rest => rest
  | S i', x :: rest => x :: remove_nth i' rest
  end.

Definition setPending (v : list Suspended) (w : World) : World :=
  mkWorld (properties w) (loading w) (isDialogOpen w) (editingProperty w)
          (formData w) v (log w).

(** One event, as the render wires it to the handlers; [None] when the
    control is not on screen. The dialog is modal: the page behind it
    takes no clicks while it is open, and its own controls exist only
    while it is open. The cards are rendered when the list is loaded and
    not empty, the empty state when it is loaded and empty. *)
Definition step (w : World) (e : Event) : option World :=
  match e with
  | click_AddProperty =>
      if isDialogOpen w then None
      else Some (setIsDialogOpen true (resetForm w))
  | click_AddYourFirstProperty =>
      if isDialogOpen w || loading w then None
      else match properties w with
           | [] => Some (setIsDialogOpen true w)
           | _ :: _ => None
           end
  | click_Edit card =>
      if isDialogOpen w || loading w then None
      else match nth_error (properties w) card with
           | Some property => Some (handleEdit property w)
           | None => None
           end
  | click_Delete card answer =>
      if isDialogOpen w || loading w then None
      else match nth_error (properties w) card with
           | Some property => Some (handleDelete (Property.id property) answer w)
           | None => None
           end
  | change field value =>
      if isDialogOpen w then Some (handleInputChange field value w) else None
  | click_Cancel =>
      if isDialogOpen w then Some (setIsDialogOpen false w) else None
  | dismiss =>
      if isDialogOpen w then Some (setIsDialogOpen false w) else None
  | click_Submit =>
      if isDialogOpen w then Some (handleSubmit w) else None
  | settle i r =>
      match nth_error (pending w) i with
      | Some k => Some (resume k r (setPending (remove_nth i (pending w)) w))
      | None => None
      end
  end.

Fixpoint run (w : World) (es : list Event) : option World :=
  match es with
  | [] => Some w
  | e :: rest =>
      match step w e with
      | Some w' => run w' rest
      | None => None
      end
  end.

(** Worlds the mounted component can be in. *)
Definition reachable (w : World) : Prop :=
  exists es, run mounted es = Some w.

End AdminPanel.

(* ================================================================== *)
(** ** RealEstatePage: the chat widget *)
(* ================================================================== *)

Module RealEstatePage.

Inductive Sender : Type := user | agent.

(** One turn of the transcript, [{ type, content }]. *)
Record Message : Type := mkMessage {
  type : Sender;
  content : string
}.

(** How the awaited [axios.post] of [sendMessage] settles; the two fields
    are [response.data.success] and [response.data.response]. *)
Inductive Settled : Type :=
| Fulfilled (success : bool) (response : string)
| Rejected.

Definition greeting : string :=
  "Hello! I'm your real estate assistant. I can help you with property searches, market analysis, investment advice, and any questions about buying or selling homes. How can I assist you today?".

Definition trouble_responding : string :=
  "I apologize, but I'm having trouble responding right now. Please try again.".

Definition unavailable : string :=
  "I'm currently unavailable. Please try again later.".

(** The four [useState] cells, the number of [sendMessage] calls waiting
    on their request, and the effects performed so far (oldest first). *)
Record World : Type := mkWorld {
  chatOpen : bool;
  messages : list Message;
  inputMessage : string;
  isLoading : bool;
  pending : nat;
  log : list Effect
}.

Definition setChatOpen (v : bool) (w : World) : World :=
  mkWorld v (messages w) (inputMessage w) (isLoading w) (pending w) (log w).
(** [setMessages(prev => [...prev, m])] *)
Definition appendMessage (m : Message) (w : World) : World :=
  mkWorld (chatOpen w) (messages w ++ [m]) (inputMessage w) (isLoading w)
          (pending w) (log w).
Definition setInputMessage (v : string) (w : World) : World :=
  mkWorld (chatOpen w) (messages w) v (isLoading w) (pending w) (log w).
Definition setIsLoading (v : bool) (w : World) : World :=
  mkWorld (chatOpen w) (messages w) (inputMessage w) v (pending w) (log w).
Definition perform (es : list Effect) (w : World) : World :=
  mkWorld (chatOpen w) (messages w) (inputMessage w) (isLoading w)
          (pending w) (log w ++ es).
Definition setPending (v : nat) (w : World) : World :=
  mkWorld (chatOpen w) (messages w) (inputMessage w) (isLoading w) v (log w).

(** The guard of [sendMessage]: [!inputMessage.trim() || isLoading]. *)
Definition suppressed (w : World) : bool :=
  negb (JS.truthy_string (JS.trim (inputMessage w))) || isLoading w.

(** [sendMessage], up to its [await]. *)
Definition sendMessage (w : World) : World :=
  if suppressed w then w
  else
    let userMessage := inputMessage w in
    setPending (S (pending w))
      (perform [Request (POST_chat userMessage "real_estate")]
         (setIsLoading true
            (appendMessage (mkMessage user userMessage)
               (setInputMessage "" w)))).

(** [sendMessage], from its [await] on: the [if] on the success flag, the
    [catch] block, then the [finally] block. *)
Definition sendMessage_resume (r : Settled) (w : World) : World :=
  setIsLoading false
    match r with
    | Fulfilled success response =>
        if success
        then appendMessage (mkMessage agent response) w
        else appendMessage (mkMessage agent trouble_responding) w
    | Rejected => appendMessage (mkMessage agent unavailable) w
    end.

(** The component as mounted. *)
Definition mounted : World :=
  mkWorld false [mkMessage agent greeting] "" false O [].

(** What can happen next. Typing and sending are taken as possible at any
    time, whatever the [disabled] attributes say: [sendMessage] has its
    own guard. *)
Inductive Event : Type :=
| open_chat
| close_chat
| type_input (value : string)
| send                         (* Send button, or Enter without Shift *)
| settle (r : Settled).

Definition step (w : World) (e : Event) : option World :=
  match e with
  | open_chat => Some (setChatOpen true w)
  | close_chat => Some (setChatOpen false w)
  | type_input value => Some (setInputMessage value w)
  | send => Some (sendMessage w)
  | settle r =>
      match pending w with
      | O => None
      | S n => Some (sendMessage_resume r (setPending n w))
      end
  end.

Fixpoint run (w : World) (es : list Event) : option World :=
  match es with
  | [] => Some w
  | e :: rest =>
      match step w e with
      | Some w' => run w' rest
      | None => None
      end
  end.

Definition reachable (w : World) : Prop :=
  exists es, run mounted es = Some w.

Definition is_settle (e : Event) : bool :=
  match e with settle _ => true | _ => false end.

Definition is_chat_request (e : Effect) : bool :=
  match e with Request (POST_chat _ _) => true | _ => false end.

(** Chat requests issued so far. *)
Definition sent (w : World) : nat := List.length (filter is_chat_request (log w)).

(** The text of the agent turn that answers a settled request. *)
Definition agent_text (r : Settled) : string :=
  match r with
  | Fulfilled true response => response
  | Fulfilled false _ => trouble_responding
  | Rejected => unavailable
  end.

(** In a reachable world a request is in flight exactly when [isLoading]
    is set, there is never more than one, and every request has put one
    user turn, every answer one agent turn, after the greeting. *)
Definition chat_invariant (w : World) : Prop :=
  (isLoading w = false /\ pending w = O \/
   isLoading w = true /\ pending w = 1%nat) /\
  (List.length (messages w) + pending w = 1 + 2 * sent w)%nat.

(** A world whose draft holds [text], ready to be sent. *)
Definition typed (text : string) : World := setInputMessage text mounted.

End RealEstatePage.

(* ================================================================== *)
(** ** Sample data *)
(* ================================================================== *)

Module Samples.

Definition villa : Property.t :=
  {| Property.id := "66f1c0";
     Property.title := "Seaside Retreat";
     Property.description := "Ocean views from every room.";
     Property.price := JS.of_Z 950000;
     Property.location := "Malibu, CA";
     Property.address := "1 Shore Road";
     Property.bedrooms := JS.of_Z 4;
     Property.bathrooms := JS.of_Z 3;
     Property.sqft := JS.of_Z 3200;
     Property.property_type := "house";
     Property.image_url := "https://example.com/villa.jpg";
     Property.amenities := ["Pool"; "Spa"];
     Property.year_built := Some (JS.of_Z 1998);
     Property.garage := None;
     Property.lot_size := Some (JS.Finite 25 (-2));
     Property.mls_number := None;
     Property.status := "active" |}.

(** A draft as a user might leave it. *)
Definition typed_draft : FormData.t :=
  {| FormData.title := "Loft";
     FormData.description := "";
     FormData.price := "abc";
     FormData.location := "Austin, TX";
     FormData.address := "";
     FormData.bedrooms := "2";
     FormData.bathrooms := " 1.5";
     FormData.sqft := "0x10";
     FormData.property_type := "condo";
     FormData.image_url := "";
     FormData.amenities := "Pool, Spa,  Gym";
     FormData.year_built := "";
     FormData.garage := "two";
     FormData.lot_size := "0.250";
     FormData.mls_number := "" |}.

(** The panel once the list has arrived with one property. *)
Definition listed : AdminPanel.World :=
  AdminPanel.fetchProperties_resume (AdminPanel.Fulfilled [villa])
    (AdminPanel.setPending [] AdminPanel.mounted).

(** The dialog open on that property. *)
Definition editing : AdminPanel.World := AdminPanel.handleEdit villa listed.

(** The same, with the update request in flight. *)
Definition submitting : AdminPanel.World := AdminPanel.handleSubmit editing.

(** Edit a property, cancel, delete it, and press the button of the
    empty list. *)
Definition edit_cancel_delete_add : list AdminPanel.Event :=
  [AdminPanel.settle 0 (AdminPanel.Fulfilled [villa]);
   AdminPanel.click_Edit 0;
   AdminPanel.click_Cancel;
   AdminPanel.click_Delete 0 true;
   AdminPanel.settle 0 (AdminPanel.Fulfilled []);
   AdminPanel.settle 0 (AdminPanel.Fulfilled []);
   AdminPanel.click_AddYourFirstProperty].

(** On an empty list: open the dialog from the header, type a title,
    cancel, and press the button of the empty list. *)
Definition type_cancel_add : list AdminPanel.Event :=
  [AdminPanel.settle 0 (AdminPanel.Fulfilled []);
   AdminPanel.click_AddProperty;
   AdminPanel.change f_title "Loft";
   AdminPanel.click_Cancel;
   AdminPanel.click_AddYourFirstProperty].

End Samples.

(* ================================================================== *)
(** ** Vocabulary for the properties of the handlers *)
(* ================================================================== *)

(** Strings of decimal digits and the integer they spell. *)
Module Digits.

Definition is_digit (c : ascii) : bool :=
  match JS.digit_value 10 c with Some _ => true | None => false end.

Fixpoint all_digits (s : string) : bool :=
  match s with
  | EmptyString => true
  | String c r => is_digit c && all_digits r
  end.

(** The integer spelled by [s] after the digits read so far, [acc]. *)
Fixpoint value (acc : Z) (s : string) : Z :=
  match s with
  | EmptyString => acc
  | String c r =>
      match JS.digit_value 10 c with
      | Some v => value (acc * 10 + v) r
      | None => acc
      end
  end.

(** [s] begins with one of the digits 1 to 9. *)
Definition starts_nonzero (s : string) : bool :=
  match s with
  | EmptyString => false
  | String c _ => is_digit c && negb (Ascii.eqb c "0")
  end.

(** [s] begins with a digit. *)
Definition starts_digit (s : string) : bool :=
  match s with
  | EmptyString => false
  | String c _ => is_digit c
  end.

(** What [parseFloat] computes once the white space and the sign are
    gone and the text is not Infinity. *)
Definition unsigned_literal (neg : bool) (body : string) : JS.Number :=
  let '(ip, ilen, rest) := JS.read_digits 10 body 0 O in
  let '(m, flen, rest) :=
    match rest with
    | String "." r =>
        let '(m, flen, r') := JS.read_digits 10 r ip O in
        match ilen, flen with
        | O, O => (ip, O, rest)
        | _, _ => (m, flen, r')
        end
    | _ => (ip, O, rest)
    end in
  match ilen, flen with
  | O, O => JS.NaN
  | _, _ =>
      JS.decimal (JS.signed neg m) (JS.read_exponent rest - Z.of_nat flen)
  end.

(** The representation [toString] and the parsers work with: a mantissa
    that is not a multiple of ten, and zero as [Finite 0 0]. *)
Definition canonical (x : JS.Number) : bool :=
  match x with
  | JS.Finite m e => if m =? 0 then e =? 0 else negb (m mod 10 =? 0)
  | _ => true
  end.

(** An integer that [toString] writes without an exponent. *)
Definition safe_integer (x : JS.Number) : Prop :=
  exists n : Z, Z.abs n < 10 ^ 21 /\ x = JS.of_Z n.

End Digits.

(** Reading the draft and the transcript. *)
Module Observe.

(** [formData[field]], as the inputs of the dialog read it. *)
Definition field_value (field : Field) (d : FormData.t) : string :=
  match field with
  | f_title => FormData.title d
  | f_description => FormData.description d
  | f_price => FormData.price d
  | f_location => FormData.location d
  | f_address => FormData.address d
  | f_bedrooms => FormData.bedrooms d
  | f_bathrooms => FormData.bathrooms d
  | f_sqft => FormData.sqft d
  | f_property_type => FormData.property_type d
  | f_image_url => FormData.image_url d
  | f_amenities => FormData.amenities d
  | f_year_built => FormData.year_built d
  | f_garage => FormData.garage d
  | f_lot_size => FormData.lot_size d
  | f_mls_number => FormData.mls_number d
  end.

Definition field_index (field : Field) : nat :=
  match field with
  | f_title => 0 | f_description => 1 | f_price => 2 | f_location => 3
  | f_address => 4 | f_bedrooms => 5 | f_bathrooms => 6 | f_sqft => 7
  | f_property_type => 8 | f_image_url => 9 | f_amenities => 10
  | f_year_built => 11 | f_garage => 12 | f_lot_size => 13
  | f_mls_number => 14
  end.

Definition same_field (f g : Field) : bool :=
  Nat.eqb (field_index f) (field_index g).

(** What a field holds after a series of keystrokes: the value typed
    into it last, or what it held before when none went to it. *)
Fixpoint last_typed (field : Field) (typed : list (Field * string))
  (before : string) : string :=
  match typed with
  | [] => before
  | (g, v) :: rest =>
      last_typed field rest (if same_field g field then v else before)
  end.

(** The keystrokes as events of the dialog. *)
Definition keystrokes (typed : list (Field * string))
  : list AdminPanel.Event :=
  map (fun fv => AdminPanel.change (fst fv) (snd fv)) typed.

Definition is_alert (e : Effect) : bool :=
  match e with Alert _ => true | _ => false end.

Definition is_user (m : RealEstatePage.Message) : bool :=
  match RealEstatePage.type m with
  | RealEstatePage.user => true
  | RealEstatePage.agent => false
  end.

(** The turns after the greeting come in pairs, a user turn and the agent
    turn that answers it, with one user turn more at the end exactly when
    [loading]. *)
Fixpoint well_paired (loading : bool) (turns : list RealEstatePage.Message)
  : bool :=
  match turns with
  | [] => negb loading
  | u :: rest =>
      is_user u &&
      match rest with
      | [] => loading
      | a :: rest' => negb (is_user a) && well_paired loading rest'
      end
  end.

(** The texts of the user turns, oldest first. *)
Definition user_texts (ms : list RealEstatePage.Message) : list string :=
  map RealEstatePage.content (filter is_user ms).

(** The chat requests in the log, oldest first, as message and agent
    type. *)
Fixpoint posted (log : list Effect) : list (string * string) :=
  match log with
  | [] => []
  | Request (POST_chat m a) :: rest => (m, a) :: posted rest
  | _ :: rest => posted rest
  end.

(** The shape of a transcript and its match with the requests sent. *)
Definition transcript_shape (w : RealEstatePage.World) : Prop :=
  exists turns,
    RealEstatePage.messages w
    = RealEstatePage.mkMessage RealEstatePage.agent RealEstatePage.greeting
      :: turns /\
    well_paired (RealEstatePage.isLoading w) turns = true /\
    map (fun text => (text, "real_estate")) (user_texts turns)
    = posted (RealEstatePage.log w).

End Observe.

(** Texts and numbers read without the built-ins. *)
Module Reading.



(** Empty or white space only. *)
Definition blank (s : string) : bool :=
  forallb JS.is_white (list_ascii_of_string s).

(** The last character of [String c s]. *)
Fixpoint last_char (s : string) (c : ascii) : ascii :=
  match s with
  | EmptyString => c
  | String c' s' => last_char s' c'
  end.

(** Neither the first nor the last character is white space. *)
Definition no_outer_white (s : string) : bool :=
  match s with
  | EmptyString => true
  | String c r =>
      negb (JS.is_white c) && negb (JS.is_white (last_char r c))
  end.

(** [a] is what is left of [seg] once the white space at its two ends is
    taken off. *)
Definition trimmed_of (seg a : string) : Prop :=
  exists l r,
    seg = l ++ a ++ r /\ blank l = true /\ blank r = true /\
    no_outer_white a = true.

End Reading.

(** More sample data. *)
Module Listings.


(** A draft with a number in every numeric field. *)
Definition numeric_draft : FormData.t :=
  {| FormData.title := "Seaside Retreat";
     FormData.description := "";
     FormData.price := "950000";
     FormData.location := "Malibu, CA";
     FormData.address := "";
     FormData.bedrooms := "4";
     FormData.bathrooms := "3";
     FormData.sqft := "3200";
     FormData.property_type := "house";
     FormData.image_url := "";
     FormData.amenities := "Pool,Spa  ";
     FormData.year_built := "1998";
     FormData.garage := "2";
     FormData.lot_size := "0.25";
     FormData.mls_number := "" |}.

(** Amenities typed with blanks, a tab, a line feed and an empty
    segment: [ Pool  ,<TAB>Spa<LF>,, Gym ]. *)
Definition spaced_amenities : string :=
  " Pool  ," ++ String "009" ("Spa" ++ String "010" ",, Gym ").

End Listings.

(* ================================================================== *)
(** ** Facts about the built-ins *)
(* ================================================================== *)

Section Builtins.

Import JS.

Lemma truthy_string_false (s : string) :
  truthy_string s = false <-> s = "".
Proof. destruct s; simpl; split; congruence. Qed.

Lemma truthy_string_true (s : string) :
  truthy_string s = true <-> s <> "".
Proof. destruct s; simpl; split; congruence. Qed.

(** [s || ''] is [s] itself when [s] is a string. *)
Lemma or_empty_Some (s : string) : AdminPanel.or_empty (Some s) = s.
Proof. destruct s; reflexivity. Qed.

(** Stripping zeros never turns a mantissa into zero. *)
Lemma strip_zeros_nonzero (fuel : nat) :
  forall m e, m <> 0 -> fst (strip_zeros fuel m e) <> 0.
Proof.
  induction fuel as [|fuel IH]; intros m e Hm; simpl; [exact Hm|].
  destruct (m mod 10 =? 0) eqn:Hmod; simpl; [|exact Hm].
  apply IH. apply Z.eqb_eq in Hmod.
  intro Hq. apply Hm.
  rewrite (Z.div_mod m 10) by lia. rewrite Hq, Hmod. reflexivity.
Qed.

(** Zero has one representation among the values of [decimal]. *)
Lemma decimal_falsy (m e : Z) :
  truthy (decimal m e) = false -> decimal m e = zero.
Proof.
  unfold decimal. destruct (m =? 0) eqn:Hm; [reflexivity|].
  apply Z.eqb_neq in Hm.
  pose proof (strip_zeros_nonzero (Z.to_nat (Z.log2 (Z.abs m))) m e Hm) as Hnz.
  destruct (strip_zeros _ m e) as [m' e']. simpl in *.
  apply Z.eqb_neq in Hnz. rewrite Hnz. discriminate.
Qed.

Lemma decimal_not_NaN (m e : Z) : decimal m e <> NaN.
Proof.
  unfold decimal. destruct (m =? 0); [discriminate|].
  destruct (strip_zeros _ m e). discriminate.
Qed.



(** [split] cuts at every separator: one more segment than separators. *)
Lemma split_length (sep : ascii) (s : string) :
  List.length (split sep s) = S (count_char sep s).
Proof.
  induction s as [|c r IH]; simpl; [reflexivity|].
  destruct (Ascii.eqb c sep); simpl.
  - rewrite IH. reflexivity.
  - destruct (split sep r) as [|seg segs]; simpl in *; [discriminate | exact IH].
Qed.

(** No segment contains the separator. *)
Lemma split_no_sep (sep : ascii) (s : string) :
  Forall (fun seg => count_char sep seg = O) (split sep s).
Proof.
  induction s as [|c r IH]; simpl.
  - constructor; [reflexivity | constructor].
  - destruct (Ascii.eqb c sep) eqn:Hc.
    + constructor; [reflexivity | exact IH].
    + destruct (split sep r) as [|seg segs].
      * constructor; [simpl; rewrite Hc; reflexivity | constructor].
      * inversion IH; subst. constructor; [|assumption].
        simpl. rewrite Hc. assumption.
Qed.

(** Putting the separator back between the segments gives the string. *)
Lemma join_split (sep : ascii) (s : string) :
  join (String sep "") (split sep s) = s.
Proof.
  induction s as [|c r IH]; simpl; [reflexivity|].
  pose proof (split_length sep r) as Hlen.
  destruct (Ascii.eqb c sep) eqn:Hc.
  - apply Ascii.eqb_eq in Hc. subst c.
    destruct (split sep r) as [|seg segs]; [discriminate|].
    simpl in *. rewrite IH. reflexivity.
  - destruct (split sep r) as [|seg segs]; [discriminate|].
    destruct segs as [|seg' segs'].
    + simpl in *. rewrite IH. reflexivity.
    + simpl in *. rewrite IH. reflexivity.
Qed.

Lemma trimEnd_empty_or_same_head (c : ascii) (r : string) :
  is_white c = false -> exists r', trimEnd (String c r) = String c r'.
Proof.
  intro Hc. simpl. destruct (trimEnd r); rewrite ?Hc; eexists; reflexivity.
Qed.

Lemma trimStart_head (s : string) :
  trimStart s = "" \/
  exists c r, trimStart s = String c r /\ is_white c = false.
Proof.
  induction s as [|c r IH]; simpl; [left; reflexivity|].
  destruct (is_white c) eqn:Hc; [exact IH|].
  right. exists c, r. split; [reflexivity | exact Hc].
Qed.

Lemma trimStart_fixed (c : ascii) (r : string) :
  is_white c = false -> trimStart (String c r) = String c r.
Proof. intro Hc. simpl. rewrite Hc. reflexivity. Qed.

Lemma trimEnd_idempotent (s : string) : trimEnd (trimEnd s) = trimEnd s.
Proof.
  induction s as [|c r IH]; simpl; [reflexivity|].
  destruct (trimEnd r) as [|c' r'] eqn:Hr.
  - destruct (is_white c) eqn:Hc; simpl; [reflexivity|].
    rewrite Hc. reflexivity.
  - simpl in *. rewrite IH. reflexivity.
Qed.

(** A trimmed string has no white space left at either end. *)
Lemma trim_trimmed (s : string) :
  trimStart (trim s) = trim s /\ trimEnd (trim s) = trim s.
Proof.
  unfold trim. split; [|apply trimEnd_idempotent].
  destruct (trimStart_head s) as [H | (c & r & H & Hc)]; rewrite H.
  - reflexivity.
  - destruct (trimEnd_empty_or_same_head c r Hc) as [r' Hr'].
    rewrite Hr'. apply trimStart_fixed, Hc.
Qed.

Lemma trim_idempotent (s : string) : trim (trim s) = trim s.
Proof.
  destruct (trim_trimmed s) as [H1 H2].
  unfold trim at 1. rewrite H1. exact H2.
Qed.

(** The decimal digits of a positive integer are at least one. *)
Lemma string_of_uint_nonempty (u : Decimal.uint) :
  u <> Decimal.Nil -> NilEmpty.string_of_uint u <> "".
Proof. destruct u; simpl; congruence. Qed.

Lemma digits_nonempty (p : positive) : digits p <> "".
Proof.
  unfold digits. apply string_of_uint_nonempty.
  intro H. apply (f_equal Pos.of_uint) in H.
  rewrite DecimalPos.Unsigned.of_to in H. discriminate.
Qed.

Lemma append_nonempty_l (a b : string) : a <> "" -> (a ++ b)%string <> "".
Proof. destruct a; simpl; congruence. Qed.

Lemma positive_toString_nonempty (ds : string) (n : Z) :
  ds <> "" -> positive_toString ds n <> "".
Proof.
  intro Hds. unfold positive_toString.
  destruct ds as [|c r]; [congruence|].
  repeat match goal with
         | |- context [if ?b then _ else _] => destruct b
         end; simpl; try discriminate.
  destruct (Z.to_nat n); simpl; discriminate.
Qed.

(** [x.toString()] is never the empty string. *)
Lemma toString_nonempty (x : Number) : toString x <> "".
Proof.
  destruct x as [| [|] | [|p|p] e]; simpl; try discriminate.
  apply positive_toString_nonempty, digits_nonempty.
Qed.

Example parseInt_ex1 : JS.parseInt "  42px" = JS.Finite 42 0.
Proof. reflexivity. Qed.
Example parseInt_ex2 : JS.parseInt "0x1A" = JS.Finite 26 0.
Proof. reflexivity. Qed.
Example parseInt_ex3 : JS.parseInt "950000" = JS.Finite 95 4.
Proof. reflexivity. Qed.
Example parseFloat_ex1 : JS.parseFloat "0.250 acres" = JS.Finite 25 (-2).
Proof. reflexivity. Qed.
Example parseFloat_ex2 : JS.parseFloat ".5e1" = JS.Finite 5 0.
Proof. reflexivity. Qed.
Example parseFloat_ex3 : JS.parseFloat "." = JS.NaN.
Proof. reflexivity. Qed.
Example parseFloat_ex4 : JS.parseFloat "5.e3x" = JS.Finite 5 3.
Proof. reflexivity. Qed.
Example toString_ex1 : JS.toString (JS.of_Z 950000) = "950000".
Proof. reflexivity. Qed.
Example toString_ex2 : JS.toString (JS.Finite 25 (-2)) = "0.25".
Proof. reflexivity. Qed.
Example toString_ex3 : JS.toString (JS.Finite (-1234) (-2)) = "-12.34".
Proof. reflexivity. Qed.
Example toString_ex4 : JS.toString (JS.Finite 1 21) = "1e+21".
Proof. reflexivity. Qed.
Example toString_ex5 : JS.toString (JS.Finite 12 (-8)) = "1.2e-7".
Proof. reflexivity. Qed.
Example split_ex1 : JS.split "," "a,,b," = ["a"; ""; "b"; ""].
Proof. reflexivity. Qed.
Example trim_ex1 : JS.trim "  a b  " = "a b".
Proof. reflexivity. Qed.

Example parseInt_ex4 : JS.parseInt "abc" = JS.NaN.
Proof. reflexivity. Qed.
Example parseInt_ex5 : JS.parseInt "-12.9" = JS.Finite (-12) 0.
Proof. reflexivity. Qed.
Example parseInt_ex6 : JS.parseInt "" = JS.NaN.
Proof. reflexivity. Qed.
Example parseFloat_ex5 : JS.parseFloat "-Infinity" = JS.Infinity true.
Proof. reflexivity. Qed.
Example toString_ex6 : JS.toString (JS.Finite 5 (-7)) = "5e-7".
Proof. reflexivity. Qed.
Example join_ex1 : JS.join ", " ["Pool"; "Spa"] = "Pool, Spa".
Proof. reflexivity. Qed.

End Builtins.

(* ================================================================== *)
(** ** The chat widget *)
(* ================================================================== *)

Section Chat.

Import RealEstatePage.

Lemma all_white_trimStart (s : string) :
  JS.trimStart s = "" <->
  forallb JS.is_white (list_ascii_of_string s) = true.
Proof.
  induction s as [|c r IH]; simpl; [tauto|].
  destruct (JS.is_white c); simpl; [exact IH | split; discriminate].
Qed.

(** [s.trim()] is empty exactly when [s] is empty or white space only. *)
Lemma trim_empty_iff (s : string) :
  JS.trim s = "" <-> forallb JS.is_white (list_ascii_of_string s) = true.
Proof.
  rewrite <- all_white_trimStart. unfold JS.trim. split.
  - intro H. destruct (trimStart_head s) as [H0 | (c & r & H0 & Hc)];
      [exact H0|].
    rewrite H0 in H.
    destruct (trimEnd_empty_or_same_head c r Hc) as [r' Hr'].
    rewrite Hr' in H. discriminate.
  - intro H. rewrite H. reflexivity.
Qed.

Lemma suppressed_iff (w : World) :
  suppressed w = true <->
  forallb JS.is_white (list_ascii_of_string (inputMessage w)) = true \/
  isLoading w = true.
Proof.
  unfold suppressed. rewrite orb_true_iff, negb_true_iff,
    truthy_string_false, trim_empty_iff. tauto.
Qed.

Lemma sendMessage_suppressed (w : World) :
  suppressed w = true -> sendMessage w = w.
Proof. unfold sendMessage. intros ->. reflexivity. Qed.

Lemma sent_perform_chat (w : World) (m a : string) :
  sent (perform [Request (POST_chat m a)] w) = S (sent w).
Proof.
  unfold sent, perform. simpl.
  rewrite filter_app, length_app. simpl. lia.
Qed.

Lemma step_invariant (w w' : World) (e : Event) :
  chat_invariant w -> step w e = Some w' -> chat_invariant w'.
Proof.
  unfold chat_invariant. intros [Hflight Hcount] Hstep.
  destruct e; simpl in Hstep.
  - inversion Hstep; subst; simpl. auto.
  - inversion Hstep; subst; simpl. auto.
  - inversion Hstep; subst; simpl. auto.
  - inversion Hstep; subst; clear Hstep.
    unfold sendMessage. destruct (suppressed w) eqn:Hs; [auto|].
    unfold suppressed in Hs. apply orb_false_iff in Hs as [_ Hl].
    destruct Hflight as [[_ Hp] | [Hl' _]]; [|congruence].
    split; [right; simpl; rewrite Hp; auto|].
    unfold sent in *. simpl. rewrite filter_app, !length_app. simpl.
    rewrite Hp in *. lia.
  - destruct (pending w) as [|n] eqn:Hp; [discriminate|].
    inversion Hstep; subst; clear Hstep.
    destruct Hflight as [[_ H0] | [_ H1]]; [discriminate|].
    injection H1 as ->.
    assert (Hlen : forall m,
               List.length (messages (appendMessage m (setPending O w)))
               = S (List.length (messages w))).
    { intro m. simpl. rewrite length_app. simpl. lia. }
    unfold sendMessage_resume.
    destruct r as [[|] response|]; simpl; (split; [left; auto|]);
      rewrite length_app; simpl; unfold sent in *; simpl in *; lia.
Qed.

Lemma run_invariant (es : list Event) :
  forall w w', chat_invariant w -> run w es = Some w' -> chat_invariant w'.
Proof.
  induction es as [|e es IH]; intros w w' Hinv Hrun; simpl in Hrun.
  - inversion Hrun; subst. exact Hinv.
  - destruct (step w e) as [w1|] eqn:Hstep; [|discriminate].
    eapply IH; [|exact Hrun]. eapply step_invariant; eauto.
Qed.

Lemma mounted_invariant : chat_invariant mounted.
Proof. unfold chat_invariant, sent. simpl. auto. Qed.

Lemma reachable_invariant (w : World) : reachable w -> chat_invariant w.
Proof.
  intros [es Hrun]. eapply run_invariant; [apply mounted_invariant | exact Hrun].
Qed.

(** While a request is in flight nothing but its answer touches the
    transcript, the flag or the count of requests in flight. *)
Lemma step_in_flight (w w' : World) (e : Event) :
  isLoading w = true -> is_settle e = false -> step w e = Some w' ->
  isLoading w' = true /\ messages w' = messages w /\ pending w' = pending w
  /\ log w' = log w.
Proof.
  intros Hl He Hstep. destruct e; simpl in *; try discriminate;
    inversion Hstep; subst; clear Hstep; simpl; auto.
  rewrite sendMessage_suppressed; [auto|].
  unfold suppressed. rewrite Hl. apply orb_true_r.
Qed.

Lemma step_total_unless_settle (w : World) (e : Event) :
  is_settle e = false -> exists w', step w e = Some w'.
Proof. destruct e; simpl; try discriminate; eauto. Qed.

Lemma run_in_flight (es : list Event) :
  forall w, isLoading w = true ->
  forallb (fun e => negb (is_settle e)) es = true ->
  exists w', run w es = Some w' /\
    isLoading w' = true /\ messages w' = messages w /\ pending w' = pending w
    /\ log w' = log w.
Proof.
  induction es as [|e es IH]; intros w Hl Hes; simpl in *.
  - exists w. auto.
  - apply andb_true_iff in Hes as [He Hes]. apply negb_true_iff in He.
    destruct (step_total_unless_settle w e He) as [w1 Hstep].
    rewrite Hstep.
    destruct (step_in_flight w w1 e Hl He Hstep) as (Hl1 & Hm1 & Hp1 & Hg1).
    destruct (IH w1 Hl1 Hes) as (w' & Hrun & Hl' & Hm' & Hp' & Hg').
    exists w'. rewrite Hrun. repeat split; congruence.
Qed.

Lemma run_app (es1 es2 : list Event) :
  forall w w1, run w es1 = Some w1 -> run w (es1 ++ es2) = run w1 es2.
Proof.
  induction es1 as [|e es1 IH]; intros w w1 H; simpl in *.
  - inversion H; subst. reflexivity.
  - destruct (step w e); [eauto | discriminate].
Qed.

End Chat.

Section ChatClaims.

Import RealEstatePage.
Local Open Scope list_scope.

(** C3: a chat send that goes out and is answered puts the user's turn and
    then exactly one agent turn at the end of the transcript, whatever
    else happens in between: the agent's own text when the response has
    [success] true, the text [trouble_responding] when it has [success]
    false, the text [unavailable] when the request fails. Nothing is
    removed, the transcript is two turns longer, and the loading flag is
    cleared. *)
Theorem chat_send_completes (w : World) (es : list Event) (r : Settled) :
  suppressed w = false ->
  forallb (fun e => negb (is_settle e)) es = true ->
  exists w1 w2,
    run w (send :: es) = Some w1 /\ step w1 (settle r) = Some w2 /\
    messages w1 = messages w ++ [mkMessage user (inputMessage w)] /\
    messages w2 =
      messages w ++ [mkMessage user (inputMessage w);
                     mkMessage agent
                       match r with
                       | Fulfilled true response => response
                       | Fulfilled false _ => trouble_responding
                       | Rejected => unavailable
                       end] /\
    List.length (messages w2) = (List.length (messages w) + 2)%nat /\
    isLoading w2 = false.
Proof.
  intros Hs Hes.
  assert (Hsend : sendMessage w =
                  setPending (S (pending w))
                    (perform [Request (POST_chat (inputMessage w) "real_estate")]
                       (setIsLoading true
                          (appendMessage (mkMessage user (inputMessage w))
                             (setInputMessage "" w))))).
  { unfold sendMessage. rewrite Hs. reflexivity. }
  destruct (run_in_flight es (sendMessage w)) as (w1 & Hrun & Hl & Hm & Hp & _);
    [rewrite Hsend; reflexivity | exact Hes |].
  rewrite Hsend in Hm, Hp. simpl in Hm, Hp.
  exists w1, (sendMessage_resume r (setPending (pending w) w1)).
  split; [simpl; exact Hrun|].
  split; [simpl; rewrite Hp; reflexivity|].
  split; [exact Hm|].
  assert (Hm2 : messages (sendMessage_resume r (setPending (pending w) w1)) =
                messages w1 ++ [mkMessage agent (agent_text r)]).
  { destruct r as [[|] response|]; reflexivity. }
  split.
  - rewrite Hm2, Hm, <- app_assoc. simpl.
    destruct r as [[|] response|]; reflexivity.
  - split; [rewrite Hm2, Hm, !length_app; simpl; lia|].
    destruct r as [[|] response|]; reflexivity.
Qed.

Lemma chat_send_completes_witness :
  exists w1 w2,
    run (typed "Any condos in Malibu?") [send; type_input "and"; send; close_chat]
      = Some w1 /\
    step w1 (settle Rejected) = Some w2 /\
    messages w1 = messages (typed "Any condos in Malibu?")
                  ++ [mkMessage user "Any condos in Malibu?"] /\
    messages w2 = messages (typed "Any condos in Malibu?")
                  ++ [mkMessage user "Any condos in Malibu?";
                      mkMessage agent unavailable] /\
    List.length (messages w2) = 3%nat /\
    isLoading w2 = false.
Proof.
  apply (chat_send_completes (typed "Any condos in Malibu?")
           [type_input "and"; send; close_chat] Rejected); reflexivity.
Defined.

(** C4: [sendMessage] changes nothing (no request, same transcript, same
    input) when the input is empty or white space only or a send is in
    flight; so in every reachable world at most one chat request is
    outstanding, the loading flag is set exactly while one is, and the
    transcript holds the greeting, two turns per answered send and one
    turn for the send in flight. *)
Theorem chat_send_suppressed :
  (forall w : World,
      forallb JS.is_white (list_ascii_of_string (inputMessage w)) = true \/
      isLoading w = true ->
      sendMessage w = w /\ step w send = Some w) /\
  (forall w : World,
      reachable w ->
      (pending w <= 1)%nat /\
      (isLoading w = true <-> pending w = 1%nat) /\
      (List.length (messages w) + pending w = 1 + 2 * sent w)%nat /\
      (pending w = 1%nat ->
       forall es w',
         forallb (fun e => negb (is_settle e)) es = true ->
         run w es = Some w' ->
         messages w' = messages w /\ pending w' = 1%nat /\ log w' = log w)).
Proof.
  split.
  - intros w H. apply suppressed_iff in H.
    simpl. rewrite (sendMessage_suppressed w H). auto.
  - intros w Hr. destruct (reachable_invariant w Hr) as [Hflight Hcount].
    split; [destruct Hflight as [[_ ->] | [_ ->]]; lia|].
    split; [destruct Hflight as [[-> ->] | [-> ->]]; split; congruence|].
    split; [exact Hcount|].
    intros Hp es w' Hes Hrun.
    assert (Hl : isLoading w = true).
    { destruct Hflight as [[_ H0] | [H1 _]]; [congruence | exact H1]. }
    destruct (run_in_flight es w Hl Hes) as (w'' & Hrun' & _ & Hm & Hp' & Hg).
    rewrite Hrun in Hrun'. inversion Hrun'; subst w''.
    repeat split; congruence.
Qed.

Lemma chat_send_suppressed_witness :
  (sendMessage (typed "   ") = typed "   " /\
   step (typed "   ") send = Some (typed "   ")) /\
  (pending (sendMessage (typed "hello")) <= 1)%nat /\
  exists w',
    run (sendMessage (typed "hello")) [type_input "again"; send; send]
      = Some w' /\
    messages w' = messages (sendMessage (typed "hello")) /\
    pending w' = 1%nat /\ log w' = log (sendMessage (typed "hello")).
Proof.
  split; [apply (proj1 chat_send_suppressed (typed "   ")); left; reflexivity|].
  assert (Hr : reachable (sendMessage (typed "hello"))).
  { exists [type_input "hello"; send]. reflexivity. }
  destruct (proj2 chat_send_suppressed _ Hr) as (Hle & _ & _ & Hfrozen).
  split; [exact Hle|].
  eexists. split; [reflexivity|].
  apply (Hfrozen eq_refl [type_input "again"; send; send]); reflexivity.
Defined.

End ChatClaims.

(* ================================================================== *)
(** ** The admin panel *)
(* ================================================================== *)

Section Admin.

Import AdminPanel.
Local Open Scope list_scope.

Lemma requests_app (l es : list Effect) :
  requests (l ++ es) = requests l ++ requests es.
Proof. apply filter_app. Qed.

Lemma nth_error_snoc {A : Type} (l : list A) (x : A) :
  nth_error (l ++ [x]) (List.length l) = Some x.
Proof. induction l as [|y l IH]; simpl; [reflexivity | exact IH]. Qed.

Lemma remove_nth_snoc {A : Type} (l : list A) (x : A) :
  remove_nth (List.length l) (l ++ [x]) = l.
Proof.
  induction l as [|y l IH]; simpl; [reflexivity | rewrite IH; reflexivity].
Qed.


Lemma handleInputChange_amenities (v : string) (w : World) :
  FormData.amenities (formData (handleInputChange f_amenities v w)) = v.
Proof. unfold handleInputChange. destruct (formData w). reflexivity. Qed.

(** The header button gives a blank dialog from any world it can be
    pressed in. *)
Lemma click_AddProperty_blank (w : World) :
  isDialogOpen w = false ->
  exists w', step w click_AddProperty = Some w' /\
    isDialogOpen w' = true /\ formData w' = FormData.empty /\
    editingProperty w' = None.
Proof.
  intro H. simpl. rewrite H. eexists. split; [reflexivity|]. simpl. auto.
Qed.

(** [resetForm] returns the draft to the empty template and clears the
    editing marker. *)
Lemma resetForm_blank (w : World) :
  formData (resetForm w) = FormData.empty /\
  editingProperty (resetForm w) = None /\
  isDialogOpen (resetForm w) = isDialogOpen w.
Proof. simpl. auto. Qed.

(** A draft field filled from an optional number is empty exactly when
    the property has none: no number prints as the empty string. *)
Lemma or_empty_toString (x : option JS.Number) :
  or_empty (option_map JS.toString x) = "" <-> x = None.
Proof.
  destruct x as [n|]; [|simpl; tauto].
  unfold option_map. rewrite or_empty_Some. split; [|discriminate].
  intro H. destruct (toString_nonempty n H).
Qed.

(** Opening a property and submitting the untouched draft sends its own
    values back. *)
Example edit_then_submit :
  let body := submitData (formData Samples.editing) in
  SubmitData.price body = Property.price Samples.villa /\
  SubmitData.bedrooms body = Property.bedrooms Samples.villa /\
  SubmitData.sqft body = Property.sqft Samples.villa /\
  SubmitData.amenities body = Property.amenities Samples.villa /\
  SubmitData.year_built body = Property.year_built Samples.villa /\
  SubmitData.garage body = Property.garage Samples.villa /\
  SubmitData.lot_size body = Property.lot_size Samples.villa.
Proof. vm_compute. repeat split. Qed.

Example submit_typed_draft :
  let body := submitData Samples.typed_draft in
  SubmitData.price body = JS.Finite 0 0 /\
  SubmitData.bedrooms body = JS.Finite 2 0 /\
  SubmitData.bathrooms body = JS.Finite 1 0 /\
  SubmitData.sqft body = JS.Finite 16 0 /\
  SubmitData.year_built body = None /\
  SubmitData.garage body = Some JS.NaN /\
  SubmitData.lot_size body = Some (JS.Finite 25 (-2)).
Proof. vm_compute. repeat split. Qed.

End Admin.

Section AdminClaims.

Import AdminPanel.
Local Open Scope list_scope.

(** C10: when the amenities text of the draft is empty, the submitted
    amenities are the empty list, where splitting and trimming the empty
    text would give one empty segment. *)
Theorem submitData_no_amenities (d : FormData.t) :
  FormData.amenities d = "" ->
  SubmitData.amenities (submitData d) = [] /\
  map JS.trim (JS.split "," (FormData.amenities d)) = [""].
Proof.
  intro H. unfold submitData; simpl. rewrite H. split; reflexivity.
Qed.

Lemma submitData_no_amenities_witness :
  SubmitData.amenities (submitData FormData.empty) = [] /\
  map JS.trim (JS.split "," (FormData.amenities FormData.empty)) = [""].
Proof. apply (submitData_no_amenities FormData.empty). reflexivity. Defined.

(** C5: pressing the submit button sends one request, the PUT for the
    property being edited or the POST when there is none, and changes
    nothing else. When that request is rejected the error is logged and
    shown in an alert; the dialog flag, the draft, the editing marker and
    the list stay as they are and no list request goes out. When it is
    fulfilled the dialog is closed, the draft is the empty template, the
    editing marker is cleared and the list is requested again. *)
Theorem handleSubmit_outcomes (w : World) :
  (isDialogOpen (handleSubmit w) = isDialogOpen w /\
   formData (handleSubmit w) = formData w /\
   editingProperty (handleSubmit w) = editingProperty w /\
   properties (handleSubmit w) = properties w /\
   pending (handleSubmit w) = pending w ++ [in_handleSubmit] /\
   log (handleSubmit w) =
     log w ++ [Request match editingProperty w with
                       | Some P => PUT_properties (Property.id P)
                                     (submitData (formData w))
                       | None => POST_properties (submitData (formData w))
                       end]) /\
  forall i : nat,
    nth_error (pending w) i = Some in_handleSubmit ->
    (exists w',
        step w (settle i Rejected) = Some w' /\
        isDialogOpen w' = isDialogOpen w /\
        formData w' = formData w /\
        editingProperty w' = editingProperty w /\
        properties w' = properties w /\
        loading w' = loading w /\
        pending w' = remove_nth i (pending w) /\
        requests (log w') = requests (log w) /\
        log w' = log w ++
                 [ConsoleError "Error saving property:";
                  Alert "Error saving property. Please check all fields."]) /\
    (forall data,
        exists w',
          step w (settle i (Fulfilled data)) = Some w' /\
          isDialogOpen w' = false /\
          formData w' = FormData.empty /\
          editingProperty w' = None /\
          loading w' = true /\
          pending w' = remove_nth i (pending w) ++ [in_fetchProperties] /\
          log w' = log w ++ [Request GET_properties]).
Proof.
  split; [simpl; repeat split; reflexivity|].
  intros i Hi. split.
  - eexists. split; [simpl; rewrite Hi; reflexivity|].
    simpl. repeat split; try reflexivity.
    rewrite requests_app. simpl. apply app_nil_r.
  - intro data. eexists. split; [simpl; rewrite Hi; reflexivity|].
    simpl. repeat split; reflexivity.
Qed.

Lemma handleSubmit_outcomes_witness :
  log Samples.submitting =
    log Samples.editing ++
    [Request (PUT_properties "66f1c0" (submitData (formData Samples.editing)))] /\
  (exists w',
      step Samples.submitting (settle 0 Rejected) = Some w' /\
      isDialogOpen w' = true /\
      formData w' = formData Samples.editing /\
      editingProperty w' = Some Samples.villa /\
      requests (log w') = requests (log Samples.submitting)) /\
  (exists w',
      step Samples.submitting (settle 0 (Fulfilled [])) = Some w' /\
      isDialogOpen w' = false /\
      formData w' = FormData.empty /\
      editingProperty w' = None /\
      log w' = log Samples.submitting ++ [Request GET_properties]).
Proof.
  destruct (handleSubmit_outcomes Samples.editing) as [(_ & _ & _ & _ & _ & Hlog) _].
  split; [exact Hlog|].
  destruct (handleSubmit_outcomes Samples.submitting) as [_ Hsettle].
  destruct (Hsettle O eq_refl) as [Hrej Hful].
  split.
  - destruct Hrej as (w' & Hstep & Ho & Hd & He & _ & _ & _ & Hr & _).
    exists w'. repeat split; assumption.
  - destruct (Hful []) as (w' & Hstep & Ho & Hd & He & _ & _ & Hl).
    exists w'. repeat split; assumption.
Defined.

(** C6: pressing Delete on a card asks for confirmation. When the user
    declines, no request goes out and the list, like the rest of the
    state, stays as it is. When the user confirms, one DELETE for the id
    of that card's property goes out, and once it is fulfilled the list
    is requested again. *)
Theorem handleDelete_confirmation (w : World) (card : nat) (P : Property.t) :
  isDialogOpen w = false ->
  loading w = false ->
  nth_error (properties w) card = Some P ->
  (exists w0,
      step w (click_Delete card false) = Some w0 /\
      requests (log w0) = requests (log w) /\
      pending w0 = pending w /\
      properties w0 = properties w /\
      loading w0 = loading w /\
      isDialogOpen w0 = isDialogOpen w /\
      formData w0 = formData w /\
      editingProperty w0 = editingProperty w) /\
  (exists w1,
      step w (click_Delete card true) = Some w1 /\
      requests (log w1) =
        requests (log w) ++ [Request (DELETE_properties (Property.id P))] /\
      pending w1 = pending w ++ [in_handleDelete] /\
      properties w1 = properties w /\
      forall data,
        exists w2,
          step w1 (settle (List.length (pending w)) (Fulfilled data)) = Some w2 /\
          requests (log w2) = requests (log w1) ++ [Request GET_properties] /\
          pending w2 = pending w ++ [in_fetchProperties] /\
          loading w2 = true).
Proof.
  intros Ho Hl Hc. split.
  - eexists. split; [simpl; rewrite Ho, Hl, Hc; reflexivity|].
    simpl. repeat split; try reflexivity.
    rewrite requests_app. simpl. apply app_nil_r.
  - eexists. split; [simpl; rewrite Ho, Hl, Hc; reflexivity|].
    simpl. split.
    { rewrite <- app_assoc, requests_app. reflexivity. }
    split; [reflexivity|]. split; [reflexivity|].
    intro data. eexists.
    rewrite nth_error_snoc, remove_nth_snoc.
    split; [reflexivity|]. simpl.
    split; [|split; reflexivity].
    rewrite requests_app. reflexivity.
Qed.

Lemma handleDelete_confirmation_witness :
  (exists w0,
      step Samples.listed (click_Delete 0 false) = Some w0 /\
      requests (log w0) = [Request GET_properties] /\
      properties w0 = [Samples.villa]) /\
  (exists w1,
      step Samples.listed (click_Delete 0 true) = Some w1 /\
      requests (log w1) =
        [Request GET_properties; Request (DELETE_properties "66f1c0")] /\
      exists w2,
        step w1 (settle 0 (Fulfilled [])) = Some w2 /\
        requests (log w2) =
          [Request GET_properties; Request (DELETE_properties "66f1c0");
           Request GET_properties]).
Proof.
  destruct (handleDelete_confirmation Samples.listed 0 Samples.villa
              eq_refl eq_refl eq_refl) as [Hno Hyes].
  split.
  - destruct Hno as (w0 & Hstep & Hr & _ & Hp & _).
    exists w0. repeat split; assumption.
  - destruct Hyes as (w1 & Hstep & Hr & _ & _ & Hnext).
    exists w1. split; [exact Hstep|]. split; [exact Hr|].
    destruct (Hnext []) as (w2 & Hstep2 & Hr2 & _).
    exists w2. split; [exact Hstep2|]. rewrite Hr2, Hr. reflexivity.
Defined.

(** C8, on the code: the button of the empty list opens the dialog
    without calling [resetForm]. After an edit that was cancelled and the
    deletion of the edited property, it opens on the deleted property's
    draft with the editing marker still set, so that submitting sends a
    PUT for the deleted id; after a cancelled Add it opens on the text
    typed before. *)
Theorem add_first_property_stale_draft :
  (exists w w',
      run mounted Samples.edit_cancel_delete_add = Some w /\
      properties w = [] /\
      isDialogOpen w = true /\
      editingProperty w = Some Samples.villa /\
      formData w = formData Samples.editing /\
      FormData.title (formData w) = "Seaside Retreat" /\
      step w click_Submit = Some w' /\
      last (log w') (Alert "") =
        Request (PUT_properties "66f1c0" (submitData (formData w)))) /\
  (exists w,
      run mounted Samples.type_cancel_add = Some w /\
      isDialogOpen w = true /\
      editingProperty w = None /\
      FormData.title (formData w) = "Loft").
Proof.
  split.
  - destruct (run mounted Samples.edit_cancel_delete_add) as [w|] eqn:Hrun;
      [|vm_compute in Hrun; discriminate].
    exists w, (handleSubmit w).
    vm_compute in Hrun. injection Hrun as <-.
    repeat split; vm_compute; reflexivity.
  - destruct (run mounted Samples.type_cancel_add) as [w|] eqn:Hrun;
      [|vm_compute in Hrun; discriminate].
    exists w.
    vm_compute in Hrun. injection Hrun as <-.
    repeat split; vm_compute; reflexivity.
Qed.

(** C9, as stated, fails: after Cancel on the dialog opened by Edit the
    draft is not the empty template and the editing marker is not
    cleared. *)
Lemma cancel_discards_draft_fails :
  ~ (forall w w' : World,
        reachable w ->
        step w click_Cancel = Some w' ->
        formData w' = FormData.empty /\ editingProperty w' = None).
Proof.
  intro H.
  assert (Hr : reachable Samples.editing).
  { exists [settle 0 (Fulfilled [Samples.villa]); click_Edit 0]. reflexivity. }
  destruct (H Samples.editing (setIsDialogOpen false Samples.editing) Hr eq_refl)
    as [_ Hmarker].
  discriminate Hmarker.
Qed.

(** C9, amended: Cancel closes the dialog and leaves the draft and the
    editing marker as they are; the draft is the empty template again,
    and the marker cleared, once the header button Add Property is
    pressed. *)
Theorem cancel_only_closes (w : World) :
  isDialogOpen w = true ->
  exists w',
    step w click_Cancel = Some w' /\
    isDialogOpen w' = false /\
    formData w' = formData w /\
    editingProperty w' = editingProperty w /\
    properties w' = properties w /\
    loading w' = loading w /\
    pending w' = pending w /\
    log w' = log w /\
    exists w'',
      step w' click_AddProperty = Some w'' /\
      isDialogOpen w'' = true /\
      formData w'' = FormData.empty /\
      editingProperty w'' = None.
Proof.
  intro Ho. exists (setIsDialogOpen false w).
  split; [simpl; rewrite Ho; reflexivity|].
  do 7 (split; [reflexivity|]).
  exists (setIsDialogOpen true (resetForm (setIsDialogOpen false w))).
  simpl. auto.
Qed.

Lemma cancel_only_closes_witness :
  exists w',
    step Samples.editing click_Cancel = Some w' /\
    isDialogOpen w' = false /\
    formData w' = formData Samples.editing /\
    editingProperty w' = Some Samples.villa.
Proof.
  destruct (cancel_only_closes Samples.editing eq_refl)
    as (w' & Hstep & Ho & Hd & He & _).
  exists w'. repeat split; assumption.
Defined.

End AdminClaims.

(* ================================================================== *)
(** ** Round trips, invariants and effects of the handlers *)
(* ================================================================== *)

Section DigitFacts.
Import JS Digits.

Lemma read_digits_app (ds : string) :
  forall rest acc len,
    all_digits ds = true ->
    read_digits 10 (ds ++ rest) acc len
    = read_digits 10 rest (value acc ds) (len + String.length ds)%nat.
Proof.
  induction ds as [|c r IH]; intros rest acc len H; simpl in *.
  - rewrite Nat.add_0_r. reflexivity.
  - apply andb_true_iff in H as [Hc Hr]. unfold is_digit in Hc.
    destruct (digit_value 10 c) as [v|]; [|discriminate].
    rewrite IH by exact Hr. f_equal. lia.
Qed.

Lemma read_digits_stop (s : string) (acc : Z) (len : nat) :
  match s with
  | EmptyString => True
  | String c _ => is_digit c = false
  end ->
  read_digits 10 s acc len = (acc, len, s).
Proof.
  destruct s as [|c r]; simpl; [reflexivity|].
  unfold is_digit. destruct (digit_value 10 c); [discriminate | reflexivity].
Qed.

Lemma digit_value_range (c : ascii) (v : Z) :
  digit_value 10 c = Some v -> 0 <= v < 10.
Proof.
  unfold digit_value.
  set (n := Z.of_N (N_of_ascii c)).
  destruct ((48 <=? n) && (n <=? 57)) eqn:H1.
  - apply andb_true_iff in H1 as [Ha Hb].
    destruct (n - 48 <? 10) eqn:H2; [|discriminate]. intros [= <-]. lia.
  - destruct ((97 <=? n) && (n <=? 122)) eqn:H2.
    + apply andb_true_iff in H2 as [Ha Hb].
      destruct (n - 87 <? 10) eqn:H3; [|discriminate]. intros [= <-]. lia.
    + destruct ((65 <=? n) && (n <=? 90)) eqn:H3.
      * apply andb_true_iff in H3 as [Ha Hb].
        destruct (n - 55 <? 10) eqn:H4; [|discriminate]. intros [= <-]. lia.
      * rewrite Z.ltb_irrefl. discriminate.
Qed.

Lemma value_shift (s : string) :
  forall acc, all_digits s = true ->
  value acc s = acc * 10 ^ Z.of_nat (String.length s) + value 0 s /\
  0 <= value 0 s < 10 ^ Z.of_nat (String.length s).
Proof.
  induction s as [|c r IH]; intros acc H.
  - simpl. lia.
  - simpl in H. apply andb_true_iff in H as [Hc Hr]. unfold is_digit in Hc.
    cbn [value String.length].
    destruct (digit_value 10 c) as [v|] eqn:Hv; [|discriminate].
    pose proof (digit_value_range c v Hv) as Hrange.
    destruct (IH (acc * 10 + v) Hr) as [E1 _].
    destruct (IH (0 * 10 + v) Hr) as [E2 B].
    rewrite E1, E2. rewrite Nat2Z.inj_succ, Z.pow_succ_r by lia.
    split; [ring | nia].
Qed.

Lemma value_app (a b : string) (acc : Z) :
  all_digits a = true -> value acc (a ++ b) = value (value acc a) b.
Proof.
  revert acc. induction a as [|c r IH]; intros acc H; simpl in *; [reflexivity|].
  apply andb_true_iff in H as [Hc Hr]. unfold is_digit in Hc.
  destruct (digit_value 10 c); [auto | discriminate].
Qed.

Lemma all_digits_app (a b : string) :
  all_digits (a ++ b) = all_digits a && all_digits b.
Proof.
  induction a as [|c r IH]; simpl; [reflexivity|].
  rewrite IH. apply andb_assoc.
Qed.

Lemma all_digits_zeros (n : nat) : all_digits (zeros n) = true.
Proof. induction n; simpl; auto. Qed.

Lemma length_zeros (n : nat) : String.length (zeros n) = n.
Proof. induction n; simpl; auto. Qed.

Lemma value_zeros (n : nat) (acc : Z) :
  value acc (zeros n) = acc * 10 ^ Z.of_nat n.
Proof.
  revert acc. induction n as [|n IH]; intro acc.
  - simpl. lia.
  - cbn [zeros value]. change (digit_value 10 "0") with (Some 0).
    cbv beta iota. rewrite IH, Nat2Z.inj_succ, Z.pow_succ_r by lia. ring.
Qed.

Lemma length_append (a b : string) :
  String.length (a ++ b) = (String.length a + String.length b)%nat.
Proof. induction a; simpl; auto. Qed.

(** The digits Stdlib prints. *)
Lemma all_digits_string_of_uint (u : Decimal.uint) :
  all_digits (NilEmpty.string_of_uint u) = true.
Proof. induction u; simpl; auto. Qed.

Lemma value_string_of_uint_acc (u : Decimal.uint) :
  forall a : positive,
    value (Zpos a) (NilEmpty.string_of_uint u) = Zpos (Pos.of_uint_acc u a).
Proof.
  induction u; intro a; cbn [NilEmpty.string_of_uint value Pos.of_uint_acc];
    try reflexivity;
    match goal with
    | |- context [digit_value 10 ?c] =>
        let v := eval vm_compute in (digit_value 10 c) in
        change (digit_value 10 c) with v
    end; cbv iota;
    match goal with
    | |- value ?x _ = _ =>
        match goal with
        | |- _ = Zpos (Pos.of_uint_acc _ ?y) =>
            replace x with (Zpos y) by lia
        end
    end; apply IHu.
Qed.

Lemma value_string_of_uint (u : Decimal.uint) :
  value 0 (NilEmpty.string_of_uint u) = Z.of_N (Pos.of_uint u).
Proof.
  induction u; cbn [NilEmpty.string_of_uint value Pos.of_uint];
    try reflexivity;
    match goal with
    | |- context [digit_value 10 ?c] =>
        let v := eval vm_compute in (digit_value 10 c) in
        change (digit_value 10 c) with v
    end; cbv iota; try exact IHu;
    cbn [Z.mul Z.add Z.of_N]; apply value_string_of_uint_acc.
Qed.

Lemma all_digits_digits (p : positive) : all_digits (digits p) = true.
Proof. apply all_digits_string_of_uint. Qed.

Lemma value_digits (p : positive) : value 0 (digits p) = Zpos p.
Proof.
  unfold digits. rewrite value_string_of_uint, DecimalPos.Unsigned.of_to.
  reflexivity.
Qed.


Lemma append_empty_r (s : string) : s ++ "" = s.
Proof. induction s; simpl; congruence. Qed.

Lemma nzhead_head (d : Decimal.uint) :
  match Decimal.nzhead d with Decimal.D0 _ => False | _ => True end.
Proof. induction d; simpl; auto. Qed.

Lemma to_uint_head (p : positive) :
  match Pos.to_uint p with
  | Decimal.Nil | Decimal.D0 _ => False
  | _ => True
  end.
Proof.
  pose proof (DecimalPos.Unsigned.to_of (Pos.to_uint p)) as H.
  rewrite DecimalPos.Unsigned.of_to in H. simpl in H.
  pose proof (DecimalPos.Unsigned.to_uint_nonzero p) as Hz.
  pose proof (nzhead_head (Pos.to_uint p)) as Hh.
  unfold Decimal.unorm in H.
  destruct (Decimal.nzhead (Pos.to_uint p)) eqn:E;
    try contradiction; rewrite H; exact I.
Qed.

Lemma starts_nonzero_digits (p : positive) : starts_nonzero (digits p) = true.
Proof.
  unfold digits. pose proof (to_uint_head p) as H.
  destruct (Pos.to_uint p); try contradiction; reflexivity.
Qed.

Lemma starts_nonzero_app (a b : string) :
  starts_nonzero a = true -> starts_nonzero (a ++ b) = true.
Proof. destruct a; simpl; [discriminate | auto]. Qed.

Lemma starts_nonzero_length (s : string) :
  starts_nonzero s = true -> (0 < String.length s)%nat.
Proof. destruct s; simpl; [discriminate | lia]. Qed.

(** A string of [k] digits that begins with a nonzero digit spells an
    integer of exactly [k] digits. *)
Lemma value_lower_bound (s : string) :
  starts_nonzero s = true -> all_digits s = true ->
  10 ^ (Z.of_nat (String.length s) - 1) <= value 0 s
  < 10 ^ Z.of_nat (String.length s).
Proof.
  intros Hs Ha. split; [|apply (value_shift s 0 Ha)].
  destruct s as [|c r]; [discriminate|].
  cbn [starts_nonzero] in Hs. apply andb_true_iff in Hs as [Hd Hz].
  cbn [all_digits] in Ha. apply andb_true_iff in Ha as [_ Hr].
  cbn [value String.length]. unfold is_digit in Hd.
  destruct (digit_value 10 c) as [v|] eqn:Hv; [|discriminate].
  assert (1 <= v < 10).
  { pose proof (digit_value_range c v Hv).
    assert (v <> 0); [|lia]. intro. subst v.
    revert Hz Hv. clear.
    destruct c as [[] [] [] [] [] [] [] []]; vm_compute; congruence. }
  destruct (value_shift r (0 * 10 + v) Hr) as [E _].
  destruct (value_shift r 0 Hr) as [_ B].
  rewrite E. replace (Z.of_nat (S (String.length r)) - 1)
    with (Z.of_nat (String.length r)) by lia.
  nia.
Qed.

(** [parseInt] on a string that begins with a digit 1 to 9, with or
    without a minus sign in front. *)
Lemma parseInt_unsigned (s : string) :
  starts_nonzero s = true ->
  parseInt s =
  let '(n, len, _) := read_digits 10 s 0 O in
  match len with O => NaN | S _ => of_Z n end.
Proof.
  destruct s as [|c r]; [discriminate|].
  destruct c as [[] [] [] [] [] [] [] []]; try discriminate; intros _;
    reflexivity.
Qed.

Lemma parseInt_negative (s : string) :
  starts_nonzero s = true ->
  parseInt (String "-" s) =
  let '(n, len, _) := read_digits 10 s 0 O in
  match len with O => NaN | S _ => of_Z (- n) end.
Proof.
  destruct s as [|c r]; [discriminate|].
  destruct c as [[] [] [] [] [] [] [] []]; try discriminate; intros _;
    reflexivity.
Qed.

Lemma read_all_digits (s : string) :
  all_digits s = true ->
  read_digits 10 s 0 O = (value 0 s, String.length s, "").
Proof.
  intro H. rewrite <- (append_empty_r s) at 1.
  rewrite read_digits_app by exact H. reflexivity.
Qed.

Lemma strip_zeros_value (fuel : nat) :
  forall m e, let '(m', e') := strip_zeros fuel m e in
              e <= e' /\ m = m' * 10 ^ (e' - e).
Proof.
  induction fuel as [|fuel IH]; intros m e; simpl.
  - rewrite Z.sub_diag. simpl. lia.
  - destruct (m mod 10 =? 0) eqn:Hmod.
    + specialize (IH (m / 10) (e + 1)).
      destruct (strip_zeros fuel (m / 10) (e + 1)) as [m' e'].
      destruct IH as [Hle Hv]. split; [lia|].
      apply Z.eqb_eq in Hmod.
      rewrite (Z.div_mod m 10) by lia. rewrite Hmod, Hv.
      replace (e' - e) with (Z.succ (e' - (e + 1))) by lia.
      rewrite Z.pow_succ_r by lia. ring.
    + rewrite Z.sub_diag. simpl. lia.
Qed.

(** The Number of an integer: zero, or a nonzero mantissa with a
    nonnegative exponent and the same value. *)
Lemma of_Z_value (n : Z) :
  n <> 0 ->
  exists m e, of_Z n = Finite m e /\ 0 <= e /\ n = m * 10 ^ e /\ m <> 0.
Proof.
  intro Hn. unfold of_Z, decimal.
  destruct (n =? 0) eqn:E; [apply Z.eqb_eq in E; contradiction|].
  pose proof (strip_zeros_value (Z.to_nat (Z.log2 (Z.abs n))) n 0) as H.
  destruct (strip_zeros _ n 0) as [m e]. destruct H as [Hle Hv].
  rewrite Z.sub_0_r in Hv.
  exists m, e. repeat split; auto. intro. subst m. lia.
Qed.

Lemma toString_integer_digits (p : positive) (e : Z) :
  0 <= e -> Zpos p * 10 ^ e < 10 ^ 21 ->
  positive_toString (digits p) (Z.of_nat (String.length (digits p)) + e)
  = digits p ++ zeros (Z.to_nat e).
Proof.
  intros He Hlt. unfold positive_toString.
  set (k := Z.of_nat (String.length (digits p))).
  pose proof (value_lower_bound (digits p) (starts_nonzero_digits p)
                (all_digits_digits p)) as [Hlo _].
  rewrite value_digits in Hlo. fold k in Hlo.
  assert (Hk : 1 <= k).
  { pose proof (starts_nonzero_length _ (starts_nonzero_digits p)). lia. }
  assert (Hb : k + e <= 21).
  { destruct (Z_le_gt_dec (k + e) 21) as [|Hgt]; [assumption|exfalso].
    assert (10 ^ 21 <= 10 ^ (k - 1) * 10 ^ e).
    { rewrite <- Z.pow_add_r by lia. apply Z.pow_le_mono_r; lia. }
    assert (0 < 10 ^ e) by (apply Z.pow_pos_nonneg; lia).
    nia. }
  replace ((k <=? k + e) && (k + e <=? 21)) with true.
  - replace (k + e - k) with e by lia. reflexivity.
  - symmetry. apply andb_true_iff. split; apply Z.leb_le; lia.
Qed.

(** Reading back the text of an integer below 10^21 in magnitude gives
    the integer. *)
Lemma parseInt_toString (n : Z) :
  Z.abs n < 10 ^ 21 -> parseInt (toString (of_Z n)) = of_Z n.
Proof.
  intro Hn. destruct (Z.eq_dec n 0) as [->|Hnz]; [reflexivity|].
  destruct (of_Z_value n Hnz) as (m & e & Hof & He & Hv & Hm).
  rewrite Hof.
  assert (Hread : forall p, Zpos p * 10 ^ e < 10 ^ 21 ->
            read_digits 10 (digits p ++ zeros (Z.to_nat e)) 0 O
            = (Zpos p * 10 ^ e,
               String.length (digits p ++ zeros (Z.to_nat e)), "")).
  { intros p _. rewrite read_all_digits.
    - rewrite value_app, value_digits, value_zeros, Z2Nat.id by
        (auto using all_digits_digits). reflexivity.
    - rewrite all_digits_app, all_digits_digits, all_digits_zeros.
      reflexivity. }
  assert (Hlen : forall p, exists l,
             String.length (digits p ++ zeros (Z.to_nat e)) = S l).
  { intro p. pose proof (starts_nonzero_length _
      (starts_nonzero_app _ (zeros (Z.to_nat e)) (starts_nonzero_digits p))).
    destruct (String.length _); [lia | eauto]. }
  destruct m as [|p|p]; [congruence| |].
  - assert (Hlt : Zpos p * 10 ^ e < 10 ^ 21) by lia.
    cbn [toString]. rewrite toString_integer_digits by assumption.
    rewrite parseInt_unsigned
      by (apply starts_nonzero_app, starts_nonzero_digits).
    rewrite Hread by assumption. destruct (Hlen p) as [l ->].
    rewrite <- Hv. exact Hof.
  - assert (Hlt : Zpos p * 10 ^ e < 10 ^ 21) by lia.
    cbn [toString]. rewrite toString_integer_digits by assumption.
    change ("-" ++ ?x) with (String "-" x).
    rewrite parseInt_negative
      by (apply starts_nonzero_app, starts_nonzero_digits).
    rewrite Hread by assumption. destruct (Hlen p) as [l ->].
    replace (- (Zpos p * 10 ^ e)) with n by lia. exact Hof.
Qed.

Lemma parseFloat_unsigned (s : string) :
  starts_digit s = true -> parseFloat s = unsigned_literal false s.
Proof.
  destruct s as [|c r]; [discriminate|].
  destruct c as [[] [] [] [] [] [] [] []]; try discriminate; intros _;
    reflexivity.
Qed.

Lemma parseFloat_negative (s : string) :
  starts_digit s = true -> parseFloat (String "-" s) = unsigned_literal true s.
Proof.
  destruct s as [|c r]; [discriminate|].
  destruct c as [[] [] [] [] [] [] [] []]; try discriminate; intros _;
    reflexivity.
Qed.

Lemma strip_zeros_shift (z : nat) :
  forall fuel m e,
    m mod 10 <> 0 -> (z <= fuel)%nat ->
    strip_zeros fuel (m * 10 ^ Z.of_nat z) e = (m, e + Z.of_nat z).
Proof.
  induction z as [|z IH]; intros fuel m e Hm Hf.
  - simpl Z.of_nat. rewrite Z.pow_0_r, Z.mul_1_r, Z.add_0_r.
    destruct fuel; simpl; [reflexivity|].
    apply Z.eqb_neq in Hm. rewrite Hm. reflexivity.
  - destruct fuel as [|fuel]; [lia|]. cbn [strip_zeros].
    rewrite Nat2Z.inj_succ, Z.pow_succ_r by lia.
    replace (m * (10 * 10 ^ Z.of_nat z)) with ((m * 10 ^ Z.of_nat z) * 10)
      by ring.
    rewrite Z.mod_mul, Z.eqb_refl, Z.div_mul by lia.
    rewrite IH by (auto; lia). f_equal. lia.
Qed.

Lemma decimal_shift (m e z : Z) :
  m mod 10 <> 0 -> 0 <= z -> decimal (m * 10 ^ z) e = Finite m (e + z).
Proof.
  intros Hm Hz. unfold decimal.
  assert (Hm0 : m <> 0) by (intro; subst; apply Hm; reflexivity).
  assert (Hp : 0 < 10 ^ z) by (apply Z.pow_pos_nonneg; lia).
  destruct (m * 10 ^ z =? 0) eqn:E; [apply Z.eqb_eq in E; nia|].
  rewrite <- (Z2Nat.id z) at 2 by lia.
  rewrite strip_zeros_shift; [rewrite Z2Nat.id by lia; reflexivity | exact Hm |].
  apply Z2Nat.inj_le; [lia | apply Z.log2_nonneg |].
  assert (2 ^ z <= Z.abs (m * 10 ^ z)).
  { assert (2 ^ z <= 10 ^ z) by (apply Z.pow_le_mono_l; lia).
    rewrite Z.abs_mul, (Z.abs_eq (10 ^ z)) by lia. nia. }
  rewrite <- (Z.log2_pow2 z) at 1 by lia. apply Z.log2_le_mono. assumption.
Qed.

Lemma decimal_canonical (m e : Z) :
  m mod 10 <> 0 -> decimal m e = Finite m e.
Proof.
  intro Hm. pose proof (decimal_shift m e 0 Hm (Z.le_refl 0)) as H.
  rewrite Z.pow_0_r, Z.mul_1_r, Z.add_0_r in H. exact H.
Qed.

Lemma signed_mod (neg : bool) (m : Z) :
  m mod 10 <> 0 -> signed neg m mod 10 <> 0.
Proof.
  destruct neg; simpl; [|auto]. intros H E. apply H.
  apply Z.mod_divide in E; [|lia]. apply Z.mod_divide; [lia|].
  destruct E as [q E]. exists (- q). lia.
Qed.

Lemma signed_mul (neg : bool) (m x : Z) :
  signed neg (m * x) = signed neg m * x.
Proof. destruct neg; simpl; ring. Qed.

Lemma take_drop (n : nat) (s : string) : take n s ++ drop n s = s.
Proof.
  revert s. induction n as [|n IH]; intros [|c r]; simpl; try reflexivity.
  rewrite IH. reflexivity.
Qed.

Lemma all_digits_take (n : nat) (s : string) :
  all_digits s = true -> all_digits (take n s) = true.
Proof.
  revert s. induction n as [|n IH]; intros [|c r] H; simpl in *; auto.
  apply andb_true_iff in H as [Hc Hr]. rewrite Hc. simpl. auto.
Qed.

Lemma all_digits_drop (n : nat) (s : string) :
  all_digits s = true -> all_digits (drop n s) = true.
Proof.
  revert s. induction n as [|n IH]; intros [|c r] H; simpl in *; auto.
  apply andb_true_iff in H as [Hc Hr]. auto.
Qed.

Lemma length_take (n : nat) (s : string) :
  (n <= String.length s)%nat -> String.length (take n s) = n.
Proof.
  revert s. induction n as [|n IH]; intros [|c r] H; simpl in *; try lia.
  rewrite IH; lia.
Qed.

Lemma length_drop (n : nat) (s : string) :
  String.length (drop n s) = (String.length s - n)%nat.
Proof.
  revert s. induction n as [|n IH]; intros [|c r]; simpl; auto.
Qed.

Lemma read_digits_digits_Z (z : Z) :
  exists l, read_digits 10 (digits_Z z) 0 O = (Z.abs z, S l, "").
Proof.
  assert (H : forall p, exists l,
             read_digits 10 (digits p) 0 O = (Zpos p, S l, "")).
  { intro p. rewrite read_all_digits by apply all_digits_digits.
    rewrite value_digits.
    pose proof (starts_nonzero_length _ (starts_nonzero_digits p)).
    destruct (String.length (digits p)); [lia | eauto]. }
  destruct z; simpl; [exists O; reflexivity | apply H | apply H].
Qed.

(** The exponent part [toString] writes reads back as the exponent. *)
Lemma read_exponent_written (x : Z) :
  read_exponent ("e" ++ (if x <? 0 then "-" else "+") ++ digits_Z x) = x.
Proof.
  destruct (read_digits_digits_Z x) as [l Hl].
  destruct (x <? 0) eqn:Hx; cbn; rewrite Hl; simpl.
  - apply Z.ltb_lt in Hx. lia.
  - apply Z.ltb_ge in Hx. lia.
Qed.

Lemma read_digits_e (s : string) (acc : Z) (len : nat) :
  read_digits 10 ("e" ++ s) acc len = (acc, len, "e" ++ s).
Proof. reflexivity. Qed.

Lemma read_digits_dot (s : string) (acc : Z) (len : nat) :
  read_digits 10 ("." ++ s) acc len = (acc, len, "." ++ s).
Proof. reflexivity. Qed.

Lemma nonempty_length (s : string) :
  s <> "" -> exists l, String.length s = S l.
Proof. destruct s; [congruence | simpl; eauto]. Qed.

(** A literal without a decimal point, followed by nothing or by an
    exponent part. *)
Lemma unsigned_literal_integer (neg : bool) (a rest : string) :
  all_digits a = true -> a <> "" ->
  rest = "" \/ (exists t, rest = "e" ++ t) ->
  unsigned_literal neg (a ++ rest)
  = decimal (signed neg (value 0 a)) (read_exponent rest).
Proof.
  intros Ha Hne Hrest. unfold unsigned_literal.
  rewrite read_digits_app by exact Ha.
  destruct (nonempty_length a Hne) as [l Hl]. rewrite Hl. cbn [Nat.add].
  destruct Hrest as [-> | [t ->]].
  - reflexivity.
  - rewrite read_digits_e. cbn -[read_exponent decimal].
    rewrite Z.sub_0_r. reflexivity.
Qed.

(** A literal with a decimal point. *)
Lemma unsigned_literal_point (neg : bool) (a b rest : string) :
  all_digits a = true -> a <> "" -> all_digits b = true ->
  rest = "" \/ (exists t, rest = "e" ++ t) ->
  unsigned_literal neg (a ++ "." ++ b ++ rest)
  = decimal (signed neg (value 0 (a ++ b)))
            (read_exponent rest - Z.of_nat (String.length b)).
Proof.
  intros Ha Hne Hb Hrest. unfold unsigned_literal.
  rewrite read_digits_app by exact Ha.
  destruct (nonempty_length a Hne) as [l Hl]. rewrite Hl. cbn [Nat.add].
  rewrite read_digits_dot. cbn [append].
  rewrite read_digits_app by exact Hb.
  rewrite value_app by exact Ha.
  assert (Hstop : read_digits 10 rest (value (value 0 a) b)
                    (0 + String.length b)
                  = (value (value 0 a) b, String.length b, rest)).
  { destruct Hrest as [-> | [t ->]]; reflexivity. }
  rewrite Hstop. destruct (String.length b); reflexivity.
Qed.

(** Reading back what [toString] writes for a positive mantissa. *)
Lemma literal_of_toString (neg : bool) (p : positive) (e : Z) :
  Zpos p mod 10 <> 0 ->
  unsigned_literal neg
    (positive_toString (digits p) (Z.of_nat (String.length (digits p)) + e))
  = Finite (signed neg (Zpos p)) e.
Proof.
  intro Hcanon.
  pose proof (all_digits_digits p) as Hall.
  pose proof (digits_nonempty p) as Hne.
  pose proof (value_digits p) as Hval.
  pose proof (signed_mod neg _ Hcanon) as Hsm.
  unfold positive_toString.
  set (ds := digits p) in *. set (k := Z.of_nat (String.length ds)).
  assert (Hk : 1 <= k).
  { destruct (nonempty_length ds Hne) as [l Hl]. unfold k. lia. }
  destruct ((k <=? k + e) && (k + e <=? 21)) eqn:C1.
  { (* digits, then zeros *)
    apply andb_true_iff in C1 as [C1 _]. apply Z.leb_le in C1.
    replace (k + e - k) with e by lia.
    rewrite <- (append_empty_r (ds ++ zeros (Z.to_nat e))).
    rewrite unsigned_literal_integer; auto.
    - rewrite value_app, Hval, value_zeros, Z2Nat.id, signed_mul by (auto; lia).
      cbn [read_exponent]. rewrite decimal_shift by (auto; lia). reflexivity.
    - rewrite all_digits_app, Hall, all_digits_zeros. reflexivity.
    - intro H. apply Hne. destruct ds; [reflexivity | discriminate]. }
  destruct ((0 <? k + e) && (k + e <=? 21)) eqn:C2.
  { (* a decimal point inside the digits *)
    apply andb_true_iff in C2 as [C2 C2']. apply Z.ltb_lt in C2.
    apply andb_false_iff in C1 as [C1 | C1]; apply Z.leb_gt in C1;
      [|apply Z.leb_le in C2'; lia].
    set (n := Z.to_nat (k + e)).
    assert (Hn : (0 < n < String.length ds)%nat) by (unfold n, k in *; lia).
    rewrite <- (append_empty_r (drop n ds)).
    rewrite unsigned_literal_point;
      auto using all_digits_take, all_digits_drop.
    - rewrite take_drop, Hval, length_drop. cbn [read_exponent].
      rewrite decimal_canonical by assumption. f_equal. unfold n, k in *. lia.
    - intro H. apply (f_equal String.length) in H.
      rewrite length_take in H by lia. simpl in H. lia. }
  destruct ((-6 <? k + e) && (k + e <=? 0)) eqn:C3.
  { (* zero, a decimal point, zeros, the digits *)
    apply andb_true_iff in C3 as [_ C3]. apply Z.leb_le in C3.
    rewrite <- (append_empty_r ds) at 1.
    change ("0." ++ ?x) with ("0" ++ "." ++ x).
    replace (zeros (Z.to_nat (- (k + e))) ++ ds ++ "")
      with ((zeros (Z.to_nat (- (k + e))) ++ ds) ++ "").
    2:{ generalize (zeros (Z.to_nat (- (k + e)))). intro z.
        induction z; simpl; congruence. }
    rewrite unsigned_literal_point; auto.
    - cbn [append]. change (value 0 (String "0" ?x)) with (value 0 x).
      rewrite value_app, value_zeros, Z.mul_0_l, Hval by apply all_digits_zeros.
      rewrite length_append, length_zeros. cbn [read_exponent].
      rewrite decimal_canonical by assumption. f_equal. unfold k in *. lia.
    - discriminate.
    - rewrite all_digits_app, Hall, all_digits_zeros. reflexivity. }
  (* exponent notation *)
  destruct (k =? 1) eqn:C4.
  - rewrite unsigned_literal_integer; eauto.
    rewrite Hval, read_exponent_written, decimal_canonical by assumption.
    apply Z.eqb_eq in C4. f_equal. lia.
  - apply Z.eqb_neq in C4.
    assert (Hn : (1 <= String.length ds)%nat) by (unfold k in *; lia).
    rewrite unsigned_literal_point;
      eauto using all_digits_take, all_digits_drop.
    + rewrite take_drop, Hval, read_exponent_written, length_drop.
      rewrite decimal_canonical by assumption. f_equal. unfold k in *. lia.
    + intro H. apply (f_equal String.length) in H.
      rewrite length_take in H by lia. discriminate.
Qed.

Lemma starts_digit_toString (p : positive) (n : Z) :
  starts_digit (positive_toString (digits p) n) = true.
Proof.
  pose proof (starts_nonzero_digits p) as H.
  assert (Hd : starts_digit (digits p) = true).
  { destruct (digits p); [discriminate|]. simpl in *.
    apply andb_true_iff in H as [H _]. exact H. }
  assert (Happ : forall a b, starts_digit a = true -> starts_digit (a ++ b) = true).
  { intros [|c r] b; simpl; [discriminate | auto]. }
  assert (Htake : forall j, starts_digit (take (S j) (digits p)) = true).
  { intro j. destruct (digits p); [discriminate | exact Hd]. }
  unfold positive_toString.
  destruct ((_ <=? _) && (_ <=? 21)); [auto|].
  destruct ((0 <? n) && (n <=? 21)) eqn:C2.
  { apply andb_true_iff in C2 as [C2 _]. apply Z.ltb_lt in C2.
    destruct (Z.to_nat n) eqn:E; [lia|]. auto. }
  destruct ((-6 <? n) && (n <=? 0)); [reflexivity|].
  destruct (_ =? 1); auto.
Qed.

(** Reading back the text of a Number gives the Number. *)
Lemma parseFloat_toString (x : Number) :
  canonical x = true -> parseFloat (toString x) = x.
Proof.
  destruct x as [| [|] | m e]; try reflexivity.
  cbn [canonical]. destruct m as [|p|p].
  - simpl. intro H. apply Z.eqb_eq in H. subst e. reflexivity.
  - simpl (_ =? 0). cbv iota. intro H. apply negb_true_iff, Z.eqb_neq in H.
    cbn [toString].
    rewrite parseFloat_unsigned by apply starts_digit_toString.
    apply (literal_of_toString false p e H).
  - simpl (_ =? 0). cbv iota. intro H. apply negb_true_iff, Z.eqb_neq in H.
    cbn [toString]. change ("-" ++ ?s) with (String "-" s).
    rewrite parseFloat_negative by apply starts_digit_toString.
    assert (Hp : Zpos p mod 10 <> 0).
    { intro E. apply H. apply Z.mod_divide in E; [|lia].
      apply Z.mod_divide; [lia|]. destruct E as [q E]. exists (- q). lia. }
    apply (literal_of_toString true p e Hp).
Qed.

End DigitFacts.

Section EditThenSubmit.

Import JS Digits AdminPanel.
Local Open Scope list_scope.

Lemma count_char_app (c : ascii) (a b : string) :
  count_char c (a ++ b)%string = (count_char c a + count_char c b)%nat.
Proof. induction a as [|d r IH]; simpl; [reflexivity | rewrite IH; lia]. Qed.

Lemma split_single (sep : ascii) (s : string) :
  count_char sep s = O -> split sep s = [s].
Proof.
  induction s as [|c r IH]; simpl; [reflexivity|].
  destruct (Ascii.eqb c sep); [discriminate|].
  intro H. rewrite IH by exact H. reflexivity.
Qed.

(** Splitting a text cut at a separator: the segments of the part before
    it, then the segments of the part after it. *)
Lemma split_app (sep : ascii) (a b : string) :
  split sep (a ++ String sep b)%string = split sep a ++ split sep b.
Proof.
  induction a as [|c r IH]; simpl.
  - rewrite Ascii.eqb_refl. reflexivity.
  - destruct (Ascii.eqb c sep); [rewrite IH; reflexivity|].
    rewrite IH.
    pose proof (split_length sep r) as Hlen.
    destruct (split sep r) as [|seg segs]; [discriminate | reflexivity].
Qed.

Lemma append_assoc (a b c : string) :
  ((a ++ b) ++ c = a ++ (b ++ c))%string.
Proof. induction a; simpl; congruence. Qed.

Lemma split_join_spaced (xs : list string) :
  forall x pre,
    Forall (fun a => count_char "," a = O) (x :: xs) ->
    count_char "," pre = O ->
    split "," (pre ++ join ", " (x :: xs))%string
    = (pre ++ x)%string :: map (fun y => String " " y) xs.
Proof.
  induction xs as [|y ys IH]; intros x pre Hall Hpre.
  - cbn [join map]. apply split_single.
    rewrite count_char_app, Hpre. inversion Hall; subst. assumption.
  - inversion Hall as [|? ? Hx Hrest]; subst.
    change (join ", " (x :: y :: ys))
      with (x ++ String "," (String " " (join ", " (y :: ys))))%string.
    rewrite <- append_assoc, split_app.
    rewrite split_single by (rewrite count_char_app, Hpre, Hx; reflexivity).
    cbn [app map]. f_equal.
    apply (IH y " "%string Hrest). reflexivity.
Qed.

Lemma trim_space (s : string) : trim (String " " s) = trim s.
Proof. reflexivity. Qed.

Lemma join_nonempty (sep : string) (x y : string) (rest : list string) :
  sep <> ""%string -> join sep (x :: y :: rest) <> ""%string.
Proof.
  intro Hs. change (join sep (x :: y :: rest))
    with (x ++ sep ++ join sep (y :: rest))%string.
  destruct x; simpl; [|discriminate].
  destruct sep; [congruence | discriminate].
Qed.

Lemma or_else_of_Z (n : Z) : or_else (of_Z n) zero = of_Z n.
Proof.
  unfold or_else. destruct (truthy (of_Z n)) eqn:H; [reflexivity|].
  symmetry. apply decimal_falsy. exact H.
Qed.

Lemma integer_field_roundtrip (x : Number) :
  safe_integer x -> or_else (parseInt (toString x)) zero = x.
Proof.
  intros (n & Hn & ->). rewrite parseInt_toString by exact Hn.
  apply or_else_of_Z.
Qed.

Lemma optional_integer_roundtrip (x : option Number) :
  (forall y, x = Some y -> safe_integer y) ->
  (if truthy_string (or_empty (option_map toString x))
   then Some (parseInt (or_empty (option_map toString x)))
   else None) = x.
Proof.
  intro H. destruct x as [y|]; [|reflexivity].
  unfold option_map. rewrite or_empty_Some.
  destruct (H y eq_refl) as (n & Hn & ->).
  pose proof (toString_nonempty (of_Z n)) as Hne.
  apply truthy_string_true in Hne. rewrite Hne.
  rewrite parseInt_toString by exact Hn. reflexivity.
Qed.

(** X1: opening Edit on a property and submitting the untouched draft sends
    back its price, bedrooms, bathrooms, sqft, year_built and garage,
    provided each is an integer below 10^21 in magnitude. *)
Theorem edit_submit_integers (P : Property.t) (w : World) :
  safe_integer (Property.price P) ->
  safe_integer (Property.bedrooms P) ->
  safe_integer (Property.bathrooms P) ->
  safe_integer (Property.sqft P) ->
  (forall y, Property.year_built P = Some y -> safe_integer y) ->
  (forall g, Property.garage P = Some g -> safe_integer g) ->
  let body := submitData (formData (handleEdit P w)) in
  SubmitData.price body = Property.price P /\
  SubmitData.bedrooms body = Property.bedrooms P /\
  SubmitData.bathrooms body = Property.bathrooms P /\
  SubmitData.sqft body = Property.sqft P /\
  SubmitData.year_built body = Property.year_built P /\
  SubmitData.garage body = Property.garage P.
Proof.
  intros Hp Hbe Hba Hs Hy Hg. cbv zeta.
  unfold submitData, handleEdit.
  cbn [formData setIsDialogOpen setFormData FormData.price FormData.bedrooms
       FormData.bathrooms FormData.sqft FormData.year_built FormData.garage
       SubmitData.price SubmitData.bedrooms SubmitData.bathrooms
       SubmitData.sqft SubmitData.year_built SubmitData.garage].
  rewrite !integer_field_roundtrip by assumption.
  rewrite !optional_integer_roundtrip by assumption.
  repeat split.
Qed.

Lemma safe_integer_of_Z (n : Z) : Z.abs n < 10 ^ 21 -> safe_integer (of_Z n).
Proof. intro H. exists n. auto. Qed.

Lemma edit_submit_integers_witness :
  let body := submitData (formData (handleEdit Samples.villa Samples.listed)) in
  SubmitData.price body = of_Z 950000 /\
  SubmitData.bedrooms body = of_Z 4 /\
  SubmitData.bathrooms body = of_Z 3 /\
  SubmitData.sqft body = of_Z 3200 /\
  SubmitData.year_built body = Some (of_Z 1998) /\
  SubmitData.garage body = None.
Proof.
  apply (edit_submit_integers Samples.villa Samples.listed).
  - apply safe_integer_of_Z. reflexivity.
  - apply safe_integer_of_Z. reflexivity.
  - apply safe_integer_of_Z. reflexivity.
  - apply safe_integer_of_Z. reflexivity.
  - intros y [= <-]. apply safe_integer_of_Z. reflexivity.
  - intros g H. discriminate H.
Defined.

(** X2: opening Edit on a property and submitting the untouched draft
    sends back its lot size: none when it has none, the same Number
    otherwise, for a Number held in canonical form. *)
Theorem edit_submit_lot_size (P : Property.t) (w : World) :
  (forall x, Property.lot_size P = Some x -> canonical x = true) ->
  SubmitData.lot_size (submitData (formData (handleEdit P w)))
  = Property.lot_size P.
Proof.
  intro H. unfold submitData, handleEdit.
  cbn [formData setIsDialogOpen setFormData FormData.lot_size
       SubmitData.lot_size].
  destruct (Property.lot_size P) as [x|]; [|reflexivity].
  unfold option_map. rewrite or_empty_Some.
  pose proof (toString_nonempty x) as Hne.
  apply truthy_string_true in Hne. rewrite Hne.
  rewrite parseFloat_toString by (apply H; reflexivity). reflexivity.
Qed.

Lemma edit_submit_lot_size_witness :
  SubmitData.lot_size
    (submitData (formData (handleEdit Samples.villa Samples.listed)))
  = Some (Finite 25 (-2)).
Proof.
  apply (edit_submit_lot_size Samples.villa Samples.listed).
  intros x [= <-]. reflexivity.
Defined.

(** Joining amenities with a comma and a space and coercing the text
    gives the amenities back. *)
Lemma join_then_coerce (xs : list string) :
  Forall (fun a => count_char "," a = O /\ trim a = a) xs ->
  xs <> [""%string] ->
  (if truthy_string (join ", " xs)
   then map trim (split "," (join ", " xs)) else []) = xs.
Proof.
  intros Hall Hne.
  destruct xs as [|x xs]; [reflexivity|].
  assert (Htruthy : truthy_string (join ", " (x :: xs)) = true).
  { apply truthy_string_true. destruct xs as [|y ys].
    - simpl. intro E. apply Hne. rewrite E. reflexivity.
    - apply join_nonempty. discriminate. }
  rewrite Htruthy.
  assert (Hcf : Forall (fun a => count_char "," a = O) (x :: xs)).
  { eapply Forall_impl; [|exact Hall]. simpl. tauto. }
  pose proof (split_join_spaced xs x ""%string Hcf eq_refl) as Hs.
  cbn [append] in Hs. rewrite Hs. cbn [map].
  inversion Hall as [|? ? [_ Hx] Hrest]; subst. rewrite Hx. f_equal.
  rewrite map_map. clear - Hrest.
  induction xs as [|y ys IH]; [reflexivity|].
  inversion Hrest as [|? ? [_ Hy] Hrest']; subst.
  cbn [map]. rewrite trim_space, Hy, IH by assumption. reflexivity.
Qed.

(** X3: opening Edit on a property and submitting the untouched draft sends
    back its amenities, provided none of them contains a comma or has
    white space at either end, and the list is not the single empty
    string (which comes back as the empty list). *)
Theorem edit_submit_amenities (P : Property.t) (w : World) :
  Forall (fun a => count_char "," a = O /\ trim a = a) (Property.amenities P) ->
  Property.amenities P <> [""%string] ->
  SubmitData.amenities (submitData (formData (handleEdit P w)))
  = Property.amenities P.
Proof.
  intros Hall Hne. unfold submitData, handleEdit.
  cbn [formData setIsDialogOpen setFormData FormData.amenities
       SubmitData.amenities].
  apply join_then_coerce; assumption.
Qed.

Lemma edit_submit_amenities_witness :
  SubmitData.amenities
    (submitData (formData (handleEdit Samples.villa Samples.listed)))
  = ["Pool"%string; "Spa"%string].
Proof.
  apply (edit_submit_amenities Samples.villa Samples.listed).
  - repeat constructor.
  - discriminate.
Defined.

End EditThenSubmit.

Section AdminFacts.

Import JS Digits Observe AdminPanel.
Local Open Scope list_scope.

(** X5: a comma in the amenities text cuts it in two: the submitted list is
    the list for the text before the comma followed by the list for the
    text after it, where an empty or blank text counts as one empty
    amenity. So a comma at the start or the end of the text, or two
    commas with only white space between them, submit an empty string
    among the amenities. *)
Theorem submitData_amenities_comma (d : FormData.t) (a b : string) :
  FormData.amenities d = (a ++ "," ++ b)%string ->
  SubmitData.amenities (submitData d)
  = map trim (split "," a) ++ map trim (split "," b) /\
  (forallb is_white (list_ascii_of_string a) = true ->
   hd "?"%string (SubmitData.amenities (submitData d)) = ""%string) /\
  (forallb is_white (list_ascii_of_string b) = true ->
   last (SubmitData.amenities (submitData d)) "?"%string = ""%string).
Proof.
  intro H.
  assert (Heq : SubmitData.amenities (submitData d)
                = map trim (split "," a) ++ map trim (split "," b)).
  { unfold submitData; simpl. rewrite H.
    replace (truthy_string (a ++ "," ++ b)) with true
      by (destruct a; reflexivity).
    change (a ++ "," ++ b)%string with (a ++ String "," b)%string.
    rewrite split_app, map_app. reflexivity. }
  rewrite Heq. split; [reflexivity|]. split; intro Hw.
  - assert (Ha : split "," a = [a]).
    { apply split_single. clear - Hw.
      induction a as [|c r IH]; simpl in *; [reflexivity|].
      apply andb_true_iff in Hw as [Hc Hr]. rewrite (IH Hr).
      destruct (Ascii.eqb c ",") eqn:E; [|reflexivity].
      apply Ascii.eqb_eq in E. subst c. discriminate Hc. }
    rewrite Ha. simpl. apply trim_empty_iff. exact Hw.
  - assert (Hb : split "," b = [b]).
    { apply split_single. clear - Hw.
      induction b as [|c r IH]; simpl in *; [reflexivity|].
      apply andb_true_iff in Hw as [Hc Hr]. rewrite (IH Hr).
      destruct (Ascii.eqb c ",") eqn:E; [|reflexivity].
      apply Ascii.eqb_eq in E. subst c. discriminate Hc. }
    rewrite Hb. simpl. rewrite last_last. apply trim_empty_iff. exact Hw.
Qed.

Lemma submitData_amenities_comma_witness :
  SubmitData.amenities
    (submitData (formData (handleInputChange f_amenities "Pool, Spa," Samples.listed)))
  = ["Pool"; "Spa"; ""]%string /\
  last (SubmitData.amenities
          (submitData (formData (handleInputChange f_amenities "Pool, Spa,"
                                   Samples.listed)))) "?"%string
  = ""%string.
Proof.
  destruct (submitData_amenities_comma
              (formData (handleInputChange f_amenities "Pool, Spa," Samples.listed))
              "Pool, Spa" "" eq_refl) as (H & _ & Hlast).
  split; [exact H | exact (Hlast eq_refl)].
Defined.

Lemma field_value_change (f g : Field) (v : string) (w : World) :
  field_value g (formData (handleInputChange f v w))
  = if same_field f g then v else field_value g (formData w).
Proof.
  unfold handleInputChange. destruct (formData w).
  destruct f, g; reflexivity.
Qed.

(** X6: [handleInputChange] puts the value under its key and nowhere else:
    the field it names reads back as the value, every other field reads
    as before, and nothing outside the draft changes. *)
Theorem handleInputChange_field (f : Field) (v : string) (w : World) :
  let w' := handleInputChange f v w in
  field_value f (formData w') = v /\
  (forall g, g <> f -> field_value g (formData w') = field_value g (formData w)) /\
  properties w' = properties w /\ loading w' = loading w /\
  isDialogOpen w' = isDialogOpen w /\ editingProperty w' = editingProperty w /\
  pending w' = pending w /\ log w' = log w.
Proof.
  cbv zeta. split; [|split].
  - rewrite field_value_change. destruct f; reflexivity.
  - intros g Hg. rewrite field_value_change.
    destruct f, g; try reflexivity; congruence.
  - unfold handleInputChange. destruct (formData w). simpl. auto 10.
Qed.

Lemma handleInputChange_frame (f : Field) (v : string) (w : World) :
  isDialogOpen (handleInputChange f v w) = isDialogOpen w /\
  editingProperty (handleInputChange f v w) = editingProperty w /\
  log (handleInputChange f v w) = log w.
Proof. unfold handleInputChange. destruct (formData w). simpl. auto. Qed.

(** X7: with the dialog open, after any series of keystrokes the Submit
    button sends one request: still the PUT for the property marked as
    edited (the POST when none is), carrying for every field the value
    typed into it last, or the value it had when nothing was typed. *)
Theorem typing_then_submit (typed : list (Field * string)) :
  forall w : World,
    isDialogOpen w = true ->
    exists w1 w2,
      run w (keystrokes typed) = Some w1 /\
      (forall f, field_value f (formData w1)
                 = last_typed f typed (field_value f (formData w))) /\
      editingProperty w1 = editingProperty w /\
      step w1 click_Submit = Some w2 /\
      log w2 =
        log w ++
        [Request match editingProperty w with
                 | Some P => PUT_properties (Property.id P)
                               (submitData (formData w1))
                 | None => POST_properties (submitData (formData w1))
                 end].
Proof.
  induction typed as [|[g v] rest IH]; intros w Ho.
  - exists w, (handleSubmit w). simpl. rewrite Ho. auto.
  - destruct (handleInputChange_frame g v w) as (Ho' & He' & Hl').
    destruct (IH (handleInputChange g v w)) as (w1 & w2 & Hrun & Hf & He & Hs & Hl);
      [congruence|].
    exists w1, w2. split; [simpl; rewrite Ho; exact Hrun|].
    split; [|split; [congruence | split; [exact Hs|]]].
    + intro f. rewrite Hf, field_value_change. reflexivity.
    + rewrite Hl, Hl', He'. reflexivity.
Qed.

Lemma typing_then_submit_witness :
  exists w1 w2,
    run Samples.editing
        (keystrokes [(f_price, "975000"); (f_title, "Sea"); (f_price, "990000")])
      = Some w1 /\
    field_value f_price (formData w1) = "990000"%string /\
    field_value f_location (formData w1) = "Malibu, CA"%string /\
    step w1 click_Submit = Some w2 /\
    log w2 = log Samples.editing ++
             [Request (PUT_properties "66f1c0" (submitData (formData w1)))].
Proof.
  destruct (typing_then_submit
              [(f_price, "975000"); (f_title, "Sea"); (f_price, "990000")]%string
              Samples.editing eq_refl)
    as (w1 & w2 & Hrun & Hf & _ & Hs & Hl).
  exists w1, w2. split; [exact Hrun|].
  split; [exact (Hf f_price)|]. split; [exact (Hf f_location)|].
  split; [exact Hs | exact Hl].
Defined.

End AdminFacts.

Section AdminRuns.

Import Observe AdminPanel.
Local Open Scope list_scope.

Lemma In_remove_nth {A : Type} (x y : A) (l : list A) (i : nat) :
  In x l -> nth_error l i = Some y -> x <> y -> In x (remove_nth i l).
Proof.
  revert i. induction l as [|z l IH]; intros i Hin Hnth Hne; [contradiction|].
  destruct i as [|i]; simpl in *.
  - injection Hnth as ->. destruct Hin; [congruence | assumption].
  - destruct Hin as [-> | Hin]; [left; reflexivity | right; eauto].
Qed.

Lemma loading_step (w w' : World) (e : Event) :
  (loading w = true -> In in_fetchProperties (pending w)) ->
  step w e = Some w' ->
  loading w' = true -> In in_fetchProperties (pending w').
Proof.
  intros Hinv Hstep.
  destruct e; simpl in Hstep.
  - destruct (isDialogOpen w); inversion Hstep; subst; exact Hinv.
  - destruct (isDialogOpen w || loading w); [discriminate|].
    destruct (properties w); inversion Hstep; subst; exact Hinv.
  - destruct (isDialogOpen w || loading w); [discriminate|].
    destruct (nth_error (properties w) card); inversion Hstep; subst; exact Hinv.
  - destruct (isDialogOpen w || loading w); [discriminate|].
    destruct (nth_error (properties w) card); inversion Hstep; subst.
    destruct answer; simpl; [|exact Hinv].
    intro Hl. apply in_or_app. left. auto.
  - destruct (isDialogOpen w); inversion Hstep; subst.
    unfold handleInputChange. destruct (formData w). exact Hinv.
  - destruct (isDialogOpen w); inversion Hstep; subst; exact Hinv.
  - destruct (isDialogOpen w); inversion Hstep; subst; exact Hinv.
  - destruct (isDialogOpen w); inversion Hstep; subst. simpl.
    intro Hl. apply in_or_app. left. auto.
  - destruct (nth_error (pending w) i) as [k|] eqn:Hk; inversion Hstep; subst.
    destruct k, r; simpl; try discriminate;
      try (intros _; apply in_or_app; right; left; reflexivity);
      intro Hl; eapply In_remove_nth; eauto; discriminate.
Qed.

(** X8: the loading flag is set only while a list request is in flight: in
    every world the mounted panel can reach, a set flag has a
    [fetchProperties] waiting for its answer, which will clear it. *)
Theorem loading_has_fetch (w : World) :
  reachable w ->
  loading w = true ->
  In in_fetchProperties (pending w) /\
  exists i, nth_error (pending w) i = Some in_fetchProperties /\
            forall r, exists w', step w (settle i r) = Some w' /\
                                 loading w' = false.
Proof.
  intros [es Hrun] Hl.
  assert (Hin : In in_fetchProperties (pending w)).
  { revert Hl.
    assert (Hgen : forall es w0 w1,
               (loading w0 = true -> In in_fetchProperties (pending w0)) ->
               run w0 es = Some w1 ->
               loading w1 = true -> In in_fetchProperties (pending w1)).
    { clear. induction es as [|e es IH]; intros w0 w1 Hinv Hrun; simpl in Hrun.
      - inversion Hrun; subst. exact Hinv.
      - destruct (step w0 e) as [w2|] eqn:Hstep; [|discriminate].
        eapply IH; [|exact Hrun]. eapply loading_step; eauto. }
    apply (Hgen es mounted w); [|exact Hrun].
    intros _. simpl. auto. }
  split; [exact Hin|].
  destruct (In_nth_error _ _ Hin) as [i Hi].
  exists i. split; [exact Hi|].
  intro r. simpl. rewrite Hi. eexists. split; [reflexivity|].
  destruct r; reflexivity.
Qed.

Lemma loading_has_fetch_witness :
  In in_fetchProperties (pending mounted) /\
  exists i, nth_error (pending mounted) i = Some in_fetchProperties /\
            forall r, exists w', step mounted (settle i r) = Some w' /\
                                 loading w' = false.
Proof.
  apply (loading_has_fetch mounted); [exists []; reflexivity | reflexivity].
Defined.

(** What one event adds to the log. *)
Lemma step_log (w w' : World) (e : Event) :
  step w e = Some w' ->
  exists es, log w' = log w ++ es /\
    es = match e with
         | click_Delete card answer =>
             match nth_error (properties w) card with
             | Some P =>
                 Confirm "Are you sure you want to delete this property?"
                 :: (if answer
                     then [Request (DELETE_properties (Property.id P))]
                     else [])
             | None => []
             end
         | click_Submit =>
             [Request match editingProperty w with
                      | Some P => PUT_properties (Property.id P)
                                    (submitData (formData w))
                      | None => POST_properties (submitData (formData w))
                      end]
         | settle i r =>
             match nth_error (pending w) i, r with
             | Some in_fetchProperties, Fulfilled _ => []
             | Some in_fetchProperties, Rejected =>
                 [ConsoleError "Error fetching properties:"]
             | Some in_handleSubmit, Fulfilled _ => [Request GET_properties]
             | Some in_handleSubmit, Rejected =>
                 [ConsoleError "Error saving property:";
                  Alert "Error saving property. Please check all fields."]
             | Some in_handleDelete, Fulfilled _ => [Request GET_properties]
             | Some in_handleDelete, Rejected =>
                 [ConsoleError "Error deleting property:";
                  Alert "Error deleting property."]
             | None, _ => []
             end
         | _ => []
         end.
Proof.
  intro Hstep. eexists. split; [|reflexivity].
  destruct e; simpl in Hstep.
  - destruct (isDialogOpen w); inversion Hstep; subst. simpl.
    symmetry. apply List.app_nil_r.
  - destruct (isDialogOpen w || loading w); [discriminate|].
    destruct (properties w); inversion Hstep; subst. simpl.
    symmetry. apply List.app_nil_r.
  - destruct (isDialogOpen w || loading w); [discriminate|].
    destruct (nth_error (properties w) card); inversion Hstep; subst. simpl.
    symmetry. apply List.app_nil_r.
  - destruct (isDialogOpen w || loading w); [discriminate|].
    destruct (nth_error (properties w) card); inversion Hstep; subst.
    destruct answer; simpl; [rewrite <- app_assoc|]; reflexivity.
  - destruct (isDialogOpen w); inversion Hstep; subst.
    unfold handleInputChange. destruct (formData w). simpl.
    symmetry. apply List.app_nil_r.
  - destruct (isDialogOpen w); inversion Hstep; subst. simpl.
    symmetry. apply List.app_nil_r.
  - destruct (isDialogOpen w); inversion Hstep; subst. simpl.
    symmetry. apply List.app_nil_r.
  - destruct (isDialogOpen w); inversion Hstep; subst. reflexivity.
  - destruct (nth_error (pending w) i) as [k|]; inversion Hstep; subst.
    destruct k, r; simpl; try reflexivity; symmetry; apply List.app_nil_r.
Qed.

(** X9: an alert is shown only when a save or a delete request is rejected:
    no user action shows one, no fulfilled request does, and a rejected
    list request is only logged to the console. *)
Theorem alert_only_on_rejected_mutation (w w' : World) (e : Event) :
  step w e = Some w' ->
  exists es, log w' = log w ++ es /\
    (existsb is_alert es = true <->
     exists i, e = settle i Rejected /\
       (nth_error (pending w) i = Some in_handleSubmit \/
        nth_error (pending w) i = Some in_handleDelete)).
Proof.
  intro Hstep. destruct (step_log w w' e Hstep) as (es & Hlog & Hes).
  exists es. split; [exact Hlog|]. subst es.
  destruct e; simpl in Hstep |- *;
    try (split; [discriminate | intros (i & Hi & _); discriminate]).
  - destruct (nth_error (properties w) card); [|split; [discriminate | intros (i & Hi & _); discriminate]].
    destruct answer; simpl; split;
      try discriminate; intros (i & Hi & _); discriminate.
  - destruct (nth_error (pending w) i) as [k|] eqn:Hk; [|discriminate].
    destruct k, r; simpl; split; try discriminate;
      try (intros (j & Hj & [H | H]); inversion Hj; subst; congruence);
      intros _; exists i; auto.
Qed.

Lemma alert_only_on_rejected_mutation_witness :
  exists es,
    log (handleSubmit_resume Rejected (setPending [] Samples.submitting))
    = log Samples.submitting ++ es /\
    (existsb is_alert es = true <->
     exists i, settle 0 Rejected = settle i Rejected /\
       (nth_error (pending Samples.submitting) i = Some in_handleSubmit \/
        nth_error (pending Samples.submitting) i = Some in_handleDelete)).
Proof.
  apply (alert_only_on_rejected_mutation Samples.submitting
           (handleSubmit_resume Rejected (setPending [] Samples.submitting))
           (settle 0 Rejected)).
  reflexivity.
Defined.

(** X10: a request goes out only on Submit, on a confirmed Delete, and when a
    save or delete request is fulfilled (the list is asked for again):
    typing, opening, cancelling, a declined Delete and every rejected
    request send nothing. *)
Theorem request_only_on_mutation (w w' : World) (e : Event) :
  step w e = Some w' ->
  exists es, log w' = log w ++ es /\
    (existsb is_request es = true <->
     e = click_Submit \/
     (exists card, e = click_Delete card true) \/
     exists i data, e = settle i (Fulfilled data) /\
       (nth_error (pending w) i = Some in_handleSubmit \/
        nth_error (pending w) i = Some in_handleDelete)).
Proof.
  intro Hstep. destruct (step_log w w' e Hstep) as (es & Hlog & Hes).
  exists es. split; [exact Hlog|]. subst es.
  destruct e; simpl in Hstep |- *;
    try (split; [discriminate |
                 intros [H | [(c & H) | (i & d & H & _)]]; discriminate]).
  - destruct (isDialogOpen w || loading w); [discriminate|].
    destruct (nth_error (properties w) card); [|discriminate].
    destruct answer; simpl; split; try discriminate; try reflexivity.
    + intros _. right. left. eauto.
    + intros [H | [(c & H) | (i & d & H & _)]]; discriminate.
  - split; auto.
  - destruct (nth_error (pending w) i) as [k|] eqn:Hk; [|discriminate].
    destruct k, r; simpl; split; try discriminate;
      try (intros [H | [(c & H) | (j & d & H & [H' | H'])]];
           try discriminate; inversion H; subst; congruence);
      intros _; right; right; exists i; eauto.
Qed.

Lemma request_only_on_mutation_witness :
  exists es,
    log (setIsDialogOpen false Samples.editing) = log Samples.editing ++ es /\
    (existsb is_request es = true <->
     click_Cancel = click_Submit \/
     (exists card, click_Cancel = click_Delete card true) \/
     exists i data, click_Cancel = settle i (Fulfilled data) /\
       (nth_error (pending Samples.editing) i = Some in_handleSubmit \/
        nth_error (pending Samples.editing) i = Some in_handleDelete)).
Proof.
  apply (request_only_on_mutation Samples.editing
           (setIsDialogOpen false Samples.editing) click_Cancel).
  reflexivity.
Defined.

End AdminRuns.

Section ChatRuns.

Import Observe RealEstatePage.
Local Open Scope list_scope.

(** What one event adds to the transcript and to the log. *)
Lemma step_appends (w w' : World) (e : Event) :
  step w e = Some w' ->
  exists turns effects,
    messages w' = messages w ++ turns /\ log w' = log w ++ effects.
Proof.
  intro Hstep. destruct e; simpl in Hstep.
  - inversion Hstep; subst. exists [], []. simpl. rewrite !List.app_nil_r. auto.
  - inversion Hstep; subst. exists [], []. simpl. rewrite !List.app_nil_r. auto.
  - inversion Hstep; subst. exists [], []. simpl. rewrite !List.app_nil_r. auto.
  - inversion Hstep; subst. unfold sendMessage.
    destruct (suppressed w).
    + exists [], []. rewrite !List.app_nil_r. auto.
    + eexists. eexists. simpl. split; reflexivity.
  - destruct (pending w); inversion Hstep; subst.
    destruct r as [[|] response|]; eexists; exists []; simpl;
      (split; [reflexivity | symmetry; apply List.app_nil_r]).
Qed.

(** X11: the transcript and the log only grow: whatever happens, the turns
    and the effects there were stay where they are, in order. *)
Theorem transcript_append_only (es : list Event) :
  forall w w' : World,
    run w es = Some w' ->
    exists turns effects,
      messages w' = messages w ++ turns /\ log w' = log w ++ effects.
Proof.
  induction es as [|e es IH]; intros w w' Hrun; simpl in Hrun.
  - inversion Hrun; subst. exists [], []. rewrite !List.app_nil_r. auto.
  - destruct (step w e) as [w1|] eqn:Hstep; [|discriminate].
    destruct (step_appends w w1 e Hstep) as (t1 & f1 & Hm1 & Hl1).
    destruct (IH w1 w' Hrun) as (t2 & f2 & Hm2 & Hl2).
    exists (t1 ++ t2), (f1 ++ f2).
    rewrite Hm2, Hl2, Hm1, Hl1, <- !app_assoc. auto.
Qed.

Lemma transcript_append_only_witness :
  exists turns effects,
    messages (sendMessage_resume Rejected (setPending 0 (sendMessage (typed "hello"))))
    = messages mounted ++ turns /\
    log (sendMessage_resume Rejected (setPending 0 (sendMessage (typed "hello"))))
    = log mounted ++ effects.
Proof.
  apply (transcript_append_only
           [type_input "hello"; send; close_chat; settle Rejected]%string
           mounted).
  reflexivity.
Defined.

Lemma pairs_ind {A : Type} (P : list A -> Prop) :
  P [] -> (forall x, P [x]) -> (forall x y l, P l -> P (x :: y :: l)) ->
  forall l, P l.
Proof.
  intros H0 H1 H2.
  assert (H : forall l, P l /\ forall x, P (x :: l)).
  { induction l as [|y l [IHl IHx]]; split; auto. }
  intro l. apply H.
Qed.

Lemma well_paired_user (u : Message) (turns : list Message) :
  is_user u = true ->
  well_paired false turns = true -> well_paired true (turns ++ [u]) = true.
Proof.
  intro Hu. induction turns as [| x | x y l IH] using pairs_ind.
  - intros _. simpl. rewrite Hu. reflexivity.
  - simpl. rewrite andb_false_r. discriminate.
  - cbn [well_paired app]. intro H.
    apply andb_true_iff in H as [Hx H]. apply andb_true_iff in H as [Hy H].
    rewrite Hx, Hy, (IH H). reflexivity.
Qed.

Lemma well_paired_agent (a : Message) (turns : list Message) :
  is_user a = false ->
  well_paired true turns = true -> well_paired false (turns ++ [a]) = true.
Proof.
  intro Ha. induction turns as [| x | x y l IH] using pairs_ind.
  - discriminate.
  - simpl. rewrite Ha, andb_true_r. intros ->. reflexivity.
  - cbn [well_paired app]. intro H.
    apply andb_true_iff in H as [Hx H]. apply andb_true_iff in H as [Hy H].
    rewrite Hx, Hy, (IH H). reflexivity.
Qed.

Lemma user_texts_app (a b : list Message) :
  user_texts (a ++ b) = user_texts a ++ user_texts b.
Proof. unfold user_texts. rewrite filter_app, map_app. reflexivity. Qed.

Lemma posted_app (a b : list Effect) : posted (a ++ b) = posted a ++ posted b.
Proof.
  induction a as [|e a IH]; [reflexivity|].
  destruct e as [[] | | |]; simpl; rewrite IH; reflexivity.
Qed.

Lemma shape_step (w w' : World) (e : Event) :
  chat_invariant w -> transcript_shape w ->
  step w e = Some w' -> transcript_shape w'.
Proof.
  intros [Hflight _] (turns & Hm & Hp & Hr) Hstep.
  destruct e; simpl in Hstep.
  - inversion Hstep; subst. exists turns. auto.
  - inversion Hstep; subst. exists turns. auto.
  - inversion Hstep; subst. exists turns. auto.
  - inversion Hstep; subst. unfold sendMessage.
    destruct (suppressed w) eqn:Hs; [exists turns; auto|].
    unfold suppressed in Hs. apply orb_false_iff in Hs as [_ Hl].
    exists (turns ++ [mkMessage user (inputMessage w)]). simpl.
    split; [rewrite Hm; reflexivity|]. split.
    + apply well_paired_user; [reflexivity|]. rewrite <- Hl. exact Hp.
    + rewrite user_texts_app, map_app, posted_app, Hr. reflexivity.
  - destruct (pending w) as [|n] eqn:Hpend; [discriminate|].
    inversion Hstep; subst.
    assert (Hl : isLoading w = true).
    { destruct Hflight as [[_ H0] | [H1 _]]; [congruence | exact H1]. }
    rewrite Hl in Hp.
    assert (Hagent : forall text,
               transcript_shape
                 (setIsLoading false
                    (appendMessage (mkMessage agent text) (setPending n w)))).
    { intro text. exists (turns ++ [mkMessage agent text]). simpl.
      split; [rewrite Hm; reflexivity|]. split.
      - apply well_paired_agent; [reflexivity | exact Hp].
      - rewrite user_texts_app, List.app_nil_r. exact Hr. }
    destruct r as [[|] response|]; apply Hagent.
Qed.

(** X12: in every world the mounted page can reach, the transcript is the
    greeting followed by pairs of a user turn and the agent turn that
    answers it, with one unanswered user turn at the end exactly while a
    request is in flight; and the texts of the user turns are, in order,
    the messages of the requests sent, each for the real_estate agent. *)
Theorem transcript_pairs_requests (w : World) :
  reachable w ->
  exists turns,
    messages w = mkMessage agent greeting :: turns /\
    well_paired (isLoading w) turns = true /\
    map (fun text => (text, "real_estate"%string)) (user_texts turns)
    = posted (log w).
Proof.
  intros [es Hrun].
  assert (Hgen : forall es w0 w1,
             chat_invariant w0 -> transcript_shape w0 ->
             run w0 es = Some w1 -> transcript_shape w1).
  { clear. induction es as [|e es IH]; intros w0 w1 Hi Hs Hrun; simpl in Hrun.
    - inversion Hrun; subst. exact Hs.
    - destruct (step w0 e) as [w2|] eqn:Hstep; [|discriminate].
      apply (IH w2 w1); [| |exact Hrun].
      + eapply step_invariant; eauto.
      + eapply shape_step; eauto. }
  apply (Hgen es mounted w); [apply mounted_invariant | | exact Hrun].
  exists []. repeat split.
Qed.

Lemma transcript_pairs_requests_witness :
  exists turns,
    messages (sendMessage (typed "  hello ")) = mkMessage agent greeting :: turns /\
    well_paired true turns = true /\
    map (fun text => (text, "real_estate"%string)) (user_texts turns)
    = [("  hello ", "real_estate")]%string.
Proof.
  apply (transcript_pairs_requests (sendMessage (typed "  hello "))).
  exists [type_input "  hello "; send]%string. reflexivity.
Defined.

End ChatRuns.

Section Coercion.

Import JS Digits AdminPanel.
Local Open Scope list_scope.

Lemma count_char_trimStart (c : ascii) (s : string) :
  count_char c s = O -> count_char c (trimStart s) = O.
Proof.
  induction s as [|d r IH]; simpl; [auto|].
  destruct (is_white d); [|auto].
  destruct (Ascii.eqb d c); [discriminate | exact IH].
Qed.

Lemma count_char_trimEnd (c : ascii) (s : string) :
  count_char c s = O -> count_char c (trimEnd s) = O.
Proof.
  induction s as [|d r IH]; simpl; [auto|].
  destruct (Ascii.eqb d c) eqn:E; [discriminate|]. simpl. intro H.
  specialize (IH H).
  destruct (trimEnd r) as [|d' r'].
  - destruct (is_white d); simpl; rewrite ?E; reflexivity.
  - cbn [count_char]. rewrite E. exact IH.
Qed.

(** X13: once submitted, amenities are stable: for a property that holds the
    amenities a draft was submitted with, opening Edit and submitting the
    untouched draft sends the same list again, unless that list is the
    single empty string, which becomes the empty list. *)
Theorem submitted_amenities_stable (d : FormData.t) (P : Property.t)
  (w : World) :
  Property.amenities P = SubmitData.amenities (submitData d) ->
  SubmitData.amenities (submitData d) <> [""%string] ->
  SubmitData.amenities (submitData (formData (handleEdit P w)))
  = SubmitData.amenities (submitData d).
Proof.
  intros HP Hne. unfold submitData at 1. unfold handleEdit.
  cbn [formData setIsDialogOpen setFormData FormData.amenities
       SubmitData.amenities].
  rewrite HP. apply join_then_coerce; [|exact Hne].
  unfold submitData; cbn [SubmitData.amenities].
  destruct (truthy_string (FormData.amenities d)); [|constructor].
  apply Forall_forall. intros a Ha.
  apply in_map_iff in Ha as (seg & <- & Hseg).
  split; [|apply trim_idempotent].
  pose proof (split_no_sep "," (FormData.amenities d)) as Hcf.
  rewrite Forall_forall in Hcf. specialize (Hcf seg Hseg).
  unfold trim. apply count_char_trimEnd, count_char_trimStart, Hcf.
Qed.

Lemma submitted_amenities_stable_witness :
  SubmitData.amenities
    (submitData
       (formData
          (handleEdit
             (Property.mk "66f1c0" "Loft" "" (of_Z 0) "" "" (of_Z 0) (of_Z 0)
                (of_Z 0) "condo" "" ["Pool"; "Spa"; "Gym"]%string
                None None None None "active")
             Samples.listed)))
  = SubmitData.amenities (submitData Samples.typed_draft).
Proof.
  apply (submitted_amenities_stable Samples.typed_draft
           (Property.mk "66f1c0" "Loft" "" (of_Z 0) "" "" (of_Z 0) (of_Z 0)
              (of_Z 0) "condo" "" ["Pool"; "Spa"; "Gym"]%string
              None None None None "active")
           Samples.listed).
  - reflexivity.
  - discriminate.
Defined.

End Coercion.

(* ================================================================== *)
(** ** What the coercions read and what the draft shows *)
(* ================================================================== *)

Section Readings.

Import JS Digits Reading AdminPanel.
Local Open Scope list_scope.










Lemma join_concat (sep : string) (xs : list string) :
  join sep xs = String.concat sep xs.
Proof. reflexivity. Qed.

Lemma blank_app (a b : string) : blank (a ++ b) = blank a && blank b.
Proof.
  unfold blank. induction a as [|c r IH]; simpl; [reflexivity|].
  rewrite IH. apply andb_assoc.
Qed.

Lemma trimStart_split (s : string) :
  exists l, s = (l ++ trimStart s)%string /\ blank l = true.
Proof.
  induction s as [|c r (l & Hl & Hb)]; [exists ""%string; auto|].
  simpl. destruct (is_white c) eqn:Hc.
  - exists (String c l). simpl. split; [congruence|].
    unfold blank in *. simpl. rewrite Hc. exact Hb.
  - exists ""%string. auto.
Qed.

Lemma trimEnd_split (s : string) :
  exists r, s = (trimEnd s ++ r)%string /\ blank r = true.
Proof.
  induction s as [|c s (r & Hr & Hb)]; [exists ""%string; auto|].
  simpl. destruct (trimEnd s) as [|c' t] eqn:Ht.
  - simpl in Hr. destruct (is_white c) eqn:Hc.
    + exists (String c r). simpl. split; [congruence|].
      unfold blank in *. simpl. rewrite Hc. exact Hb.
    + exists r. simpl. split; [congruence | exact Hb].
  - exists r. simpl. split; [|exact Hb]. rewrite Hr at 1. reflexivity.
Qed.

Lemma trimEnd_last (s : string) :
  forall c t, trimEnd s = String c t -> is_white (last_char t c) = false.
Proof.
  induction s as [|d s IH]; intros c t H; [discriminate|].
  simpl in H. destruct (trimEnd s) as [|c' t'] eqn:Ht.
  - destruct (is_white d) eqn:Hd; [discriminate|].
    injection H as <- <-. exact Hd.
  - injection H as <- <-. simpl. apply (IH c' t' eq_refl).
Qed.

(** [trim] takes white space off the two ends and nothing else. *)
Lemma trim_trimmed_of (s : string) : trimmed_of s (trim s).
Proof.
  destruct (trimStart_split s) as (l & Hl & Hbl).
  destruct (trimEnd_split (trimStart s)) as (r & Hr & Hbr).
  exists l, r. split; [|split; [exact Hbl | split; [exact Hbr|]]].
  - unfold trim. rewrite <- Hr. exact Hl.
  - unfold trim, no_outer_white.
    destruct (trimEnd (trimStart s)) as [|c t] eqn:Ht; [reflexivity|].
    rewrite (trimEnd_last _ _ _ Ht). rewrite andb_true_r.
    destruct (trimStart_head s) as [H0 | (c0 & r0 & H0 & Hc0)].
    + rewrite H0 in Ht. discriminate.
    + rewrite H0 in Ht.
      destruct (trimEnd_empty_or_same_head c0 r0 Hc0) as [r' Hr'].
      rewrite Hr' in Ht. injection Ht as -> _. rewrite Hc0. reflexivity.
Qed.

End Readings.

Section CoercionClaims.

Import JS Digits Reading AdminPanel.
Local Open Scope list_scope.



Lemma Forall2_map_r {A B : Type} (R : A -> B -> Prop) (f : A -> B)
  (xs : list A) :
  (forall x, R x (f x)) -> Forall2 R xs (map f xs).
Proof. intro H. induction xs; simpl; constructor; auto. Qed.

(** C2: when the amenities text of the draft is not empty, the submitted
    amenities are its comma-separated segments, each trimmed, none left
    out. The text is the segments put back together with commas, no
    segment holds a comma, there is one amenity per segment (one more
    than the text has commas), and each amenity is its segment with the
    white space at both ends taken off: blanks, tabs and line ends before
    and after go, and the amenity neither begins nor ends with white
    space. The text "Pool, Spa,  Gym" gives Pool, Spa, Gym; blanks after
    a name, a tab, a line feed and an empty segment are handled
    alike. *)
Theorem submitData_amenities (d : FormData.t) :
  FormData.amenities d <> ""%string ->
  SubmitData.amenities (submitData d)
    = map JS.trim (JS.split "," (FormData.amenities d)) /\
  List.length (SubmitData.amenities (submitData d))
    = S (JS.count_char "," (FormData.amenities d)) /\
  Forall (fun a => JS.trimStart a = a /\ JS.trimEnd a = a)
         (SubmitData.amenities (submitData d)) /\
  (exists segments : list string,
      FormData.amenities d = String.concat "," segments /\
      Forall (fun seg => JS.count_char "," seg = O) segments /\
      Forall2 trimmed_of segments (SubmitData.amenities (submitData d))) /\
  (forall w : World,
      SubmitData.amenities
        (submitData
           (formData (handleInputChange f_amenities "Pool, Spa,  Gym" w)))
      = ["Pool"; "Spa"; "Gym"]%string) /\
  (forall w : World,
      SubmitData.amenities
        (submitData
           (formData
              (handleInputChange f_amenities Listings.spaced_amenities w)))
      = ["Pool"; "Spa"; ""; "Gym"]%string) /\
  SubmitData.amenities (submitData Listings.numeric_draft)
  = ["Pool"; "Spa"]%string.
Proof.
  intro Hne. apply truthy_string_true in Hne.
  assert (Heq : SubmitData.amenities (submitData d)
                = map JS.trim (JS.split "," (FormData.amenities d))).
  { unfold submitData; simpl. rewrite Hne. reflexivity. }
  rewrite Heq. split; [reflexivity|].
  split; [rewrite length_map; apply split_length|].
  split.
  { apply Forall_forall. intros a Ha. apply in_map_iff in Ha as (seg & <- & _).
    apply trim_trimmed. }
  split.
  { exists (JS.split "," (FormData.amenities d)).
    split; [symmetry; apply (join_split "," (FormData.amenities d))|].
    split; [apply split_no_sep|].
    apply Forall2_map_r. apply trim_trimmed_of. }
  split; [|split].
  - intro w. unfold submitData at 1; simpl.
    rewrite handleInputChange_amenities. reflexivity.
  - intro w. unfold submitData at 1; simpl.
    rewrite handleInputChange_amenities. reflexivity.
  - reflexivity.
Qed.

Lemma submitData_amenities_witness :
  SubmitData.amenities (submitData Samples.typed_draft)
  = ["Pool"; "Spa"; "Gym"]%string /\
  exists segments : list string,
    " Pool  ,Spa"%string = String.concat "," segments /\
    Forall2 trimmed_of segments
      (SubmitData.amenities
         (submitData
            (formData
               (handleInputChange f_amenities " Pool  ,Spa" Samples.listed)))).
Proof.
  assert (Hne : FormData.amenities Samples.typed_draft <> ""%string)
    by discriminate.
  split.
  - rewrite (proj1 (submitData_amenities Samples.typed_draft Hne)).
    reflexivity.
  - assert (Hne2 : FormData.amenities
                     (formData (handleInputChange f_amenities " Pool  ,Spa"
                                  Samples.listed)) <> ""%string)
      by discriminate.
    destruct (submitData_amenities _ Hne2)
      as (_ & _ & _ & (segments & Htext & _ & Htrim) & _).
    exists segments. split; [exact Htext | exact Htrim].
Defined.



End CoercionClaims.

Section BoundedCoercion.

Import JS Digits AdminPanel.
Local Open Scope list_scope.

Lemma digit_value_bound (radix : Z) (c : ascii) (v : Z) :
  digit_value radix c = Some v -> 0 <= v < radix.
Proof.
  unfold digit_value.
  set (n := Z.of_N (N_of_ascii c)).
  destruct ((48 <=? n) && (n <=? 57)) eqn:H1;
    [|destruct ((97 <=? n) && (n <=? 122)) eqn:H2;
      [|destruct ((65 <=? n) && (n <=? 90)) eqn:H3]].
  - apply andb_true_iff in H1 as [Ha _]. apply Z.leb_le in Ha.
    destruct (n - 48 <? radix) eqn:E; [|discriminate].
    apply Z.ltb_lt in E. intros [= <-]. lia.
  - apply andb_true_iff in H2 as [Ha _]. apply Z.leb_le in Ha.
    destruct (n - 87 <? radix) eqn:E; [|discriminate].
    apply Z.ltb_lt in E. intros [= <-]. lia.
  - apply andb_true_iff in H3 as [Ha _]. apply Z.leb_le in Ha.
    destruct (n - 55 <? radix) eqn:E; [|discriminate].
    apply Z.ltb_lt in E. intros [= <-]. lia.
  - rewrite Z.ltb_irrefl. discriminate.
Qed.

(** A run of [k] digits spells an integer below [radix ^ k]. *)
Lemma read_digits_bound (radix : Z) (s : string) :
  1 < radix ->
  forall acc len,
    0 <= acc ->
    exists n k rest,
      read_digits radix s acc len = (n, (len + k)%nat, rest) /\
      (k <= String.length s)%nat /\
      0 <= n < (acc + 1) * radix ^ Z.of_nat k.
Proof.
  intro Hr. induction s as [|c r IH]; intros acc len Hacc.
  - exists acc, O, ""%string. simpl. rewrite Nat.add_0_r.
    repeat split; try lia.
  - simpl. destruct (digit_value radix c) as [v|] eqn:Hv.
    + pose proof (digit_value_bound radix c v Hv) as Hb.
      destruct (IH (acc * radix + v) (S len)) as (n & k & rest & Hrd & Hk & Hn);
        [nia|].
      exists n, (S k), rest. rewrite Hrd.
      split; [f_equal; f_equal; lia|]. split; [lia|].
      rewrite Nat2Z.inj_succ, Z.pow_succ_r by lia.
      assert (0 < radix ^ Z.of_nat k) by (apply Z.pow_pos_nonneg; lia).
      nia.
    + exists acc, O, (String c r). rewrite Nat.add_0_r.
      repeat split; simpl; lia.
Qed.

Lemma length_trimStart (s : string) :
  (String.length (trimStart s) <= String.length s)%nat.
Proof.
  induction s as [|c r IH]; simpl; [lia|].
  destruct (is_white c); simpl; lia.
Qed.

Lemma length_read_sign (s : string) :
  (String.length (snd (read_sign s)) <= String.length s)%nat.
Proof.
  destruct s as [|c r]; simpl; [lia|].
  destruct c as [[] [] [] [] [] [] [] []]; simpl; lia.
Qed.

Lemma radix_prefix (body : string) :
  let '(radix, body') :=
    match body with
    | String "0" (String "x" r) => (16, r)
    | String "0" (String "X" r) => (16, r)
    | _ => (10, body)
    end in
  (radix = 10 /\ body' = body) \/
  (radix = 16 /\ (String.length body' + 2 = String.length body)%nat).
Proof.
  destruct body as [|c1 [|c2 r]]; try (left; split; reflexivity).
  - destruct c1 as [[] [] [] [] [] [] [] []]; left; split; reflexivity.
  - destruct c1 as [[] [] [] [] [] [] [] []];
      try (left; split; reflexivity).
    destruct c2 as [[] [] [] [] [] [] [] []];
      try (left; split; reflexivity); right; split; simpl; try reflexivity; lia.
Qed.

(** On a text of fifteen characters at most, [parseInt] finds nothing
    or an integer below 2^53 in magnitude. *)
Lemma parseInt_short (s : string) :
  (String.length s <= 15)%nat ->
  parseInt s = NaN \/ exists n, Z.abs n < 2 ^ 53 /\ parseInt s = of_Z n.
Proof.
  intro Hlen. unfold parseInt.
  pose proof (length_trimStart s) as Ht.
  pose proof (length_read_sign (trimStart s)) as Hs.
  destruct (read_sign (trimStart s)) as [neg body]. simpl in Hs.
  pose proof (radix_prefix body) as Hp.
  destruct (match body with
            | String "0" (String "x" r) => (16, r)
            | String "0" (String "X" r) => (16, r)
            | _ => (10, body)
            end) as [radix body'].
  assert (Hr : 1 < radix) by (destruct Hp as [[-> _] | [-> _]]; lia).
  destruct (read_digits_bound radix body' Hr 0 O (Z.le_refl 0))
    as (n & k & rest & Hrd & Hk & Hn).
  rewrite Hrd. simpl Nat.add. destruct k as [|k]; [left; reflexivity|].
  right. exists (signed neg n). split; [|reflexivity].
  assert (Hbound : n < 2 ^ 53).
  { destruct Hp as [[-> ->] | [-> Hb]].
    - assert (10 ^ Z.of_nat (S k) <= 10 ^ 15) by (apply Z.pow_le_mono_r; lia).
      assert (10 ^ 15 < 2 ^ 53) by reflexivity. lia.
    - assert (16 ^ Z.of_nat (S k) <= 16 ^ 13) by (apply Z.pow_le_mono_r; lia).
      assert (16 ^ 13 < 2 ^ 53) by reflexivity. lia. }
  destruct neg; simpl; lia.
Qed.

Lemma or_else_not_NaN (x : Number) : or_else x zero <> NaN.
Proof.
  unfold or_else. destruct x as [| b | m e]; simpl; try discriminate.
  destruct (negb (m =? 0)); discriminate.
Qed.

Lemma parseInt_or_zero_short (s : string) :
  (String.length s <= 15)%nat ->
  exists n, Z.abs n < 2 ^ 53 /\ or_else (parseInt s) zero = of_Z n.
Proof.
  intro H. destruct (parseInt_short s H) as [-> | (n & Hn & ->)].
  - exists 0. split; reflexivity.
  - exists n. split; [exact Hn | apply or_else_of_Z].
Qed.

(** X4: whatever the draft holds, the price, bedrooms, bathrooms and
    sqft of the request body are never NaN; and when the text of the
    field has fifteen characters at most, the value is an integer below
    2^53 in magnitude. *)
Theorem submitData_integers (d : FormData.t) :
  (SubmitData.price (submitData d) <> NaN /\
   SubmitData.bedrooms (submitData d) <> NaN /\
   SubmitData.bathrooms (submitData d) <> NaN /\
   SubmitData.sqft (submitData d) <> NaN) /\
  ((String.length (FormData.price d) <= 15)%nat ->
   exists n, Z.abs n < 2 ^ 53 /\ SubmitData.price (submitData d) = of_Z n) /\
  ((String.length (FormData.bedrooms d) <= 15)%nat ->
   exists n, Z.abs n < 2 ^ 53 /\ SubmitData.bedrooms (submitData d) = of_Z n) /\
  ((String.length (FormData.bathrooms d) <= 15)%nat ->
   exists n, Z.abs n < 2 ^ 53 /\ SubmitData.bathrooms (submitData d) = of_Z n) /\
  ((String.length (FormData.sqft d) <= 15)%nat ->
   exists n, Z.abs n < 2 ^ 53 /\ SubmitData.sqft (submitData d) = of_Z n).
Proof.
  unfold submitData; simpl.
  split; [repeat split; apply or_else_not_NaN|].
  repeat split; apply parseInt_or_zero_short.
Qed.

Lemma submitData_integers_witness :
  SubmitData.price (submitData Samples.typed_draft) <> NaN /\
  (exists n, Z.abs n < 2 ^ 53 /\
             SubmitData.price (submitData Samples.typed_draft) = of_Z n) /\
  (exists n, Z.abs n < 2 ^ 53 /\
             SubmitData.sqft (submitData Samples.typed_draft) = of_Z n).
Proof.
  destruct (submitData_integers Samples.typed_draft)
    as ((Hp & _) & Hprice & _ & _ & Hsqft).
  split; [exact Hp|]. split.
  - apply Hprice. simpl. lia.
  - apply Hsqft. simpl. lia.
Defined.

(** X14: an integer field reads the digits its text begins with and
    ignores the rest: a price typed as a positive integer up to 2^53
    followed by anything that does not begin with a digit (a decimal
    part, a unit, a space) is submitted as that integer, cut off and not
    rounded. *)
Theorem submitData_price_prefix (d : FormData.t) (p : positive) (rest : string) :
  Zpos p <= 2 ^ 53 ->
  FormData.price d = (digits p ++ rest)%string ->
  starts_digit rest = false ->
  SubmitData.price (submitData d) = of_Z (Zpos p).
Proof.
  intros _ Hd Hrest. unfold submitData; cbn [SubmitData.price]. rewrite Hd.
  rewrite parseInt_unsigned
    by (apply starts_nonzero_app, starts_nonzero_digits).
  rewrite read_digits_app by apply all_digits_digits.
  rewrite read_digits_stop by (destruct rest; [exact I | exact Hrest]).
  rewrite value_digits.
  pose proof (starts_nonzero_length _ (starts_nonzero_digits p)) as Hlen.
  destruct (String.length (digits p)); [lia|]. simpl Nat.add.
  apply or_else_of_Z.
Qed.

Lemma submitData_price_prefix_witness :
  SubmitData.price
    (submitData (formData (handleInputChange f_price "949999.99" Samples.listed)))
  = of_Z 949999.
Proof.
  apply (submitData_price_prefix
           (formData (handleInputChange f_price "949999.99" Samples.listed))
           949999 ".99"); [discriminate | reflexivity | reflexivity].
Defined.

End BoundedCoercion.
